(** * Zendesk dashboard: change detection and SLA evaluation

    A shallow embedding of the ticket change-detection and SLA-evaluation
    code of the repository:

    - [scripts/zendesk_monitor.py]: [ZendeskMonitor.get_stats] and
      [ZendeskMonitor.detect_changes] (module [Monitor]);
    - [scripts/zendesk_server.py], Python half: [parse_sla_metrics]
      (module [Server]);
    - [scripts/zendesk_server.py], JavaScript half served to the browser:
      [getSLAStatus], [formatSLATime], [renderSLABadge] and
      [calculateStats] (module [Dashboard]).

    Python dictionaries decoded from JSON are finite maps from strings to
    scalar values; an insertion-ordered dictionary that the code iterates
    over is an association list with unique keys. Python exceptions are the
    [Raise] results of a small error monad. JavaScript numbers are exact
    rationals extended with NaN: rounding of IEEE doubles is not modelled. *)

From Stdlib Require Import ZArith QArith Qabs Qround Lqa Lia.
From stdpp Require Import gmap strings list fin_maps pretty.

Local Open Scope Z_scope.

(** ** Python values and exceptions *)

Module Py.

(** The scalar values a decoded JSON object holds. *)
Inductive pyval :=
  | PyNone
  | PyInt (n : Z)
  | PyStr (s : string).

#[global] Instance pyval_eq_dec : EqDecision pyval.
Proof. solve_decision. Defined.

Definition pyval_to_sum (v : pyval) : unit + (Z + string) :=
  match v with
  | PyNone => inl tt
  | PyInt n => inr (inl n)
  | PyStr s => inr (inr s)
  end.

Definition pyval_of_sum (x : unit + (Z + string)) : pyval :=
  match x with
  | inl _ => PyNone
  | inr (inl n) => PyInt n
  | inr (inr s) => PyStr s
  end.

#[global] Instance pyval_countable : Countable pyval.
Proof.
  apply (inj_countable' pyval_to_sum pyval_of_sum).
  by intros [].
Defined.

(** The exceptions the modelled code can raise. *)
Inductive exn :=
  | KeyError (k : pyval)
  | TypeError.

Inductive result (A : Type) :=
  | Ok (a : A)
  | Raise (e : exn).
Arguments Ok {A} a.
Arguments Raise {A} e.

#[global] Instance result_ret : MRet result := fun A a => Ok a.
#[global] Instance result_bind : MBind result := fun A B f m =>
  match m with
  | Ok a => f a
  | Raise e => Raise e
  end.

(** A [for] loop whose body may raise: the first exception ends the loop. *)
Fixpoint foldM {A B : Type} (f : A → B → result A) (a : A) (l : list B)
    : result A :=
  match l with
  | [] => Ok a
  | b :: l' => a' ← f a b; foldM f a' l'
  end.

(** A JSON object: [d[k]] raises [KeyError] on a missing key, [d.get(k)]
    gives [None] and [d.get(k, v)] gives [v]. *)
Abbreviation pydict := (gmap string pyval).

Definition getitem (d : pydict) (k : string) : result pyval :=
  match d !! k with
  | Some v => Ok v
  | None => Raise (KeyError (PyStr k))
  end.

Definition get_or (d : pydict) (k : string) (dflt : pyval) : pyval :=
  default dflt (d !! k).

Definition get (d : pydict) (k : string) : pyval := get_or d k PyNone.

(** An insertion-ordered dictionary: keys are unique, a new key goes to the
    end and an existing key keeps its position when its value is replaced. *)
Section odict.
Context {V : Type}.

Definition odict := list (pyval * V).

Fixpoint od_get (d : odict) (k : pyval) : option V :=
  match d with
  | [] => None
  | (k', v) :: d' => if decide (k = k') then Some v else od_get d' k
  end.

Fixpoint od_set (d : odict) (k : pyval) (v : V) : odict :=
  match d with
  | [] => [(k, v)]
  | (k', v') :: d' =>
      if decide (k = k') then (k', v) :: d' else (k', v') :: od_set d' k v
  end.

Definition od_items (d : odict) : list (pyval * V) := d.
Definition od_keys (d : odict) : list pyval := d.*1.
Definition od_values (d : odict) : list V := d.*2.
End odict.
Arguments odict V : clear implicits.

End Py.

(** ** Counting *)

Module Counting.

(** The number of elements of a list that satisfy a predicate. *)
Definition count_where {A : Type} (P : A → Prop) `{!∀ x, Decision (P x)}
    (l : list A) : Z :=
  Z.of_nat (length (filter P l)).

End Counting.

(** ** scripts/zendesk_monitor.py *)

Module Monitor.
Import Py Counting.

(** A ticket is the JSON object of the search API. *)
Abbreviation ticket := (gmap string pyval).

(** *** get_stats *)

(** A value of the [stats] dictionary: an [int] counter, or one of the two
    [defaultdict(int)] tallies. *)
Inductive statval :=
  | Count (n : Z)
  | Tally (d : gmap pyval Z).

Abbreviation stats := (gmap string statval).

Definition init_stats (tickets : list ticket) : stats :=
  <["total" := Count (Z.of_nat (length tickets))]>
  (<["urgent" := Count 0]>
  (<["high" := Count 0]>
  (<["normal" := Count 0]>
  (<["low" := Count 0]>
  (<["new" := Count 0]>
  (<["open" := Count 0]>
  (<["pending" := Count 0]>
  (<["solved" := Count 0]>
  (<["closed" := Count 0]>
  (<["by_requester" := Tally ∅]>
  (<["by_type" := Tally ∅]> ∅))))))))))).

(** [stats[k] += 1]: the item is read first, so a key that is not in the
    dictionary raises [KeyError]; adding 1 to a [defaultdict] raises
    [TypeError]. Every key of [stats] is a string. *)
Definition incr (s : stats) (k : pyval) : result stats :=
  match k with
  | PyStr name =>
      match s !! name with
      | Some (Count n) => Ok (<[name := Count (n + 1)]> s)
      | Some (Tally _) => Raise TypeError
      | None => Raise (KeyError k)
      end
  | _ => Raise (KeyError k)
  end.

(** [stats[name][k] += 1] on a [defaultdict(int)]: a missing [k] reads 0. *)
Definition tally (s : stats) (name : string) (k : pyval) : result stats :=
  match s !! name with
  | Some (Tally d) => Ok (<[name := Tally (<[k := default 0 (d !! k) + 1]> d)]> s)
  | Some (Count _) => Raise TypeError
  | None => Raise (KeyError (PyStr name))
  end.

Definition get_stats_step (s : stats) (t : ticket) : result stats :=
  let priority := get_or t "priority" (PyStr "none") in
  let status := get_or t "status" (PyStr "unknown") in
  let requester_id := get t "requester_id" in
  let ticket_type := get_or t "type" (PyStr "unknown") in
  s1 ← incr s priority;
  s2 ← incr s1 status;
  s3 ← tally s2 "by_requester" requester_id;
  tally s3 "by_type" ticket_type.

Definition get_stats (tickets : list ticket) : result stats :=
  foldM get_stats_step (init_stats tickets) tickets.

(** *** detect_changes *)

Record status_change := {
  sc_ticket : ticket;
  old_status : pyval;
  new_status : pyval
}.

Record priority_change := {
  pc_ticket : ticket;
  old_priority : pyval;
  new_priority : pyval
}.

Record changes := {
  new_tickets : list ticket;
  status_changes : list status_change;
  priority_changes : list priority_change
}.

Definition no_changes : changes :=
  {| new_tickets := []; status_changes := []; priority_changes := [] |}.

(** [self.previous_tickets]: the snapshot, empty when the monitor is made. *)
Abbreviation snapshot := (odict ticket).

Definition init_previous_tickets : snapshot := [].

(** [{t['id']: t for t in current_tickets}] *)
Definition current_ids (current_tickets : list ticket) : result snapshot :=
  foldM (fun d t => i ← getitem t "id"; mret (od_set d i t)) [] current_tickets.

Definition detect_step (previous_tickets : snapshot) (ch : changes)
    (item : pyval * ticket) : changes :=
  let '(ticket_id, t) := item in
  match od_get previous_tickets ticket_id with
  | None =>
      {| new_tickets := new_tickets ch ++ [t];
         status_changes := status_changes ch;
         priority_changes := priority_changes ch |}
  | Some prev =>
      let sc :=
        if decide (get prev "status" ≠ get t "status")
        then status_changes ch ++
               [{| sc_ticket := t; old_status := get prev "status";
                   new_status := get t "status" |}]
        else status_changes ch in
      let pc :=
        if decide (get prev "priority" ≠ get t "priority")
        then priority_changes ch ++
               [{| pc_ticket := t; old_priority := get prev "priority";
                   new_priority := get t "priority" |}]
        else priority_changes ch in
      {| new_tickets := new_tickets ch;
         status_changes := sc;
         priority_changes := pc |}
  end.

(** The method returns [changes] and leaves the new snapshot in
    [self.previous_tickets]; when the comprehension raises, neither
    happens. *)
Definition detect_changes (previous_tickets : snapshot)
    (current_tickets : list ticket) : result (changes * snapshot) :=
  ids ← current_ids current_tickets;
  mret (fold_left (detect_step previous_tickets) (od_items ids) no_changes,
        ids).

(** Vocabulary of the statements: the ids of a batch in batch order, and
    the batches whose tickets all have an [id]. *)
Definition ticket_ids (tickets : list ticket) : list pyval :=
  (fun t => get t "id") <$> tickets.

Definition has_id (t : ticket) : Prop := is_Some (t !! "id").

(** The keys of [stats] that hold an [int]. *)
Definition counter_keys : list string :=
  ["total"; "urgent"; "high"; "normal"; "low";
   "new"; "open"; "pending"; "solved"; "closed"].

(** The values [get_stats] reads off a ticket. *)
Definition ticket_priority (t : ticket) : pyval :=
  get_or t "priority" (PyStr "none").

Definition ticket_status (t : ticket) : pyval :=
  get_or t "status" (PyStr "unknown").

Definition ticket_type (t : ticket) : pyval :=
  get_or t "type" (PyStr "unknown").

(** Both values name an [int] key of [stats]. *)
Definition countable (t : ticket) : Prop :=
  (∃ k, k ∈ counter_keys ∧ ticket_priority t = PyStr k)
  ∧ (∃ k, k ∈ counter_keys ∧ ticket_status t = PyStr k).

(** What one item of the id-to-record mapping adds to each list of
    [changes], read off the three branches of the loop body. *)
Definition new_item (previous_tickets : snapshot) (item : pyval * ticket)
    : option ticket :=
  match od_get previous_tickets item.1 with
  | None => Some item.2
  | Some _ => None
  end.

Definition status_item (previous_tickets : snapshot) (item : pyval * ticket)
    : option status_change :=
  match od_get previous_tickets item.1 with
  | Some prev =>
      if decide (get prev "status" ≠ get item.2 "status")
      then Some {| sc_ticket := item.2; old_status := get prev "status";
                   new_status := get item.2 "status" |}
      else None
  | None => None
  end.

Definition priority_item (previous_tickets : snapshot) (item : pyval * ticket)
    : option priority_change :=
  match od_get previous_tickets item.1 with
  | Some prev =>
      if decide (get prev "priority" ≠ get item.2 "priority")
      then Some {| pc_ticket := item.2; old_priority := get prev "priority";
                   new_priority := get item.2 "priority" |}
      else None
  | None => None
  end.

(** A ticket of the batch, as the item it is in the mapping. *)
Definition item_of (t : ticket) : pyval * ticket := (get t "id", t).

(** How often a string is the priority or the status of a ticket of the
    batch: what [stats[priority] += 1] and [stats[status] += 1] add to the
    counter of that name. *)
Definition occurrences (k : string) (tickets : list ticket) : Z :=
  count_where (fun t => ticket_priority t = PyStr k) tickets
  + count_where (fun t => ticket_status t = PyStr k) tickets.

(** The form [stats] keeps along the loop: the [int] keys are the ten
    counters, with values [c]; the two tallies read [fr] and [ft]. *)
Definition stats_shape (s : stats) (c : string → Z) (fr ft : pyval → Z)
    : Prop :=
  (∀ k, k ∈ counter_keys → s !! k = Some (Count (c k)))
  ∧ (∀ k n, s !! k = Some (Count n) → k ∈ counter_keys)
  ∧ (∃ d, s !! "by_requester" = Some (Tally d)
          ∧ ∀ r, default 0 (d !! r) = fr r)
  ∧ (∃ d, s !! "by_type" = Some (Tally d)
          ∧ ∀ r, default 0 (d !! r) = ft r).

End Monitor.

(** ** scripts/zendesk_server.py: parse_sla_metrics *)

Module Server.

(** The [policy] object of an [apply_sla] event. *)
Record sla_policy := {
  pol_title : option string;
  pol_id : option Z
}.

(** The [sla] object of an [apply_sla] event; every field is read with
    [.get], so every field may be missing. *)
Record sla_data := {
  target_in_seconds : option Z;
  target : option Z;
  sd_business_hours : option bool;
  policy : option sla_policy
}.

(** A metric event: [type] and [time] are read with [.get], [sla] is
    tested with [in]. *)
Record event := {
  ev_type : option string;
  ev_time : option string;
  ev_sla : option sla_data
}.

(** The dictionary [parse_sla_metrics] returns, attached to the ticket as
    [sla_metrics] and sent to the dashboard as JSON. *)
Record sla_info := {
  metric_type : string;
  target_seconds : Z;
  business_hours : bool;
  policy_title : string;
  policy_id : option Z;
  fulfilled : bool;
  breached : bool;
  breach_time : option string
}.

(** The first loop over [events]: the first event of type [apply_sla] that
    has an [sla] object gives the target and the policy. The two flags are
    filled in by the second loop. *)
Fixpoint find_apply_sla (mt : string) (events : list event) : option sla_info :=
  match events with
  | [] => None
  | e :: es =>
      if decide (ev_type e = Some "apply_sla") then
        match ev_sla e with
        | Some d =>
            Some {| metric_type := mt;
                    target_seconds :=
                      default (default 0 (target d) * 60) (target_in_seconds d);
                    business_hours := default false (sd_business_hours d);
                    policy_title :=
                      default "Unknown" (policy d ≫= pol_title);
                    policy_id := policy d ≫= pol_id;
                    fulfilled := false;
                    breached := false;
                    breach_time := None |}
        | None => find_apply_sla mt es
        end
      else find_apply_sla mt es
  end.

(** One turn of the second loop, on the pair [(fulfilled, breach_time)]. *)
Definition scan_step (st : bool * option string) (e : event)
    : bool * option string :=
  if decide (ev_type e = Some "fulfill") then (true, st.2)
  else if decide (ev_type e = Some "breach") then (st.1, ev_time e)
  else st.

Definition scan_events (events : list event) : bool * option string :=
  fold_left scan_step events (false, None).

Definition with_flags (i : sla_info) (st : bool * option string) : sla_info :=
  {| metric_type := metric_type i;
     target_seconds := target_seconds i;
     business_hours := business_hours i;
     policy_title := policy_title i;
     policy_id := policy_id i;
     fulfilled := st.1;
     breached := bool_decide (st.2 ≠ None);
     breach_time := st.2 |}.

(** The evaluation of one stream, when it has an [apply_sla] event. *)
Definition eval_stream (mt : string) (events : list event) : option sla_info :=
  i ← find_apply_sla mt events; Some (with_flags i (scan_events events)).

(** The loop over the metric types, in the order of the list. *)
Fixpoint parse_loop (metric_data : gmap string (list event))
    (metric_types : list string) : option sla_info :=
  match metric_types with
  | [] => None
  | mt :: rest =>
      match metric_data !! mt with
      | None => parse_loop metric_data rest
      | Some events =>
          match eval_stream mt events with
          | Some i =>
              if decide (mt = "resolution_time") then Some i
              else if decide (mt = "reply_time") then Some i
              else parse_loop metric_data rest
          | None => parse_loop metric_data rest
          end
      end
  end.

(** [metric_data] is the decoded response, or [None]; an empty dictionary
    is false as well. [ticket_status] is not used by the body. *)
Definition parse_sla_metrics (metric_data : option (gmap string (list event)))
    (ticket_status : option string) : option sla_info :=
  match metric_data with
  | None => None
  | Some md =>
      if decide (md = ∅) then None
      else parse_loop md ["resolution_time"; "reply_time"]
  end.

(** Vocabulary of the statements. A stream has an [apply_sla], [breach] or
    [fulfill] event when one of its events has that type. *)
Definition has_event (kind : string) (events : list event) : Prop :=
  Exists (fun e => ev_type e = Some kind) events.





End Server.

(** ** scripts/zendesk_server.py: the dashboard script *)

Module Dashboard.
Import Server.

(** *** JavaScript numbers *)

(** A number is a rational or NaN. Arithmetic propagates NaN and every
    comparison with NaN is false. Division is only ever applied to a
    divisor that is not zero (see [DashboardSpec.slaTargetMinutes_nonzero]);
    the model gives NaN at zero. *)
Definition num := option Q.

Definition NaN : num := None.
Definition num_of_Z (z : Z) : num := Some (inject_Z z).

Definition nsub (a b : num) : num :=
  match a, b with Some x, Some y => Some (x - y)%Q | _, _ => None end.
Definition nmul (a b : num) : num :=
  match a, b with Some x, Some y => Some (x * y)%Q | _, _ => None end.
Definition ndiv (a b : num) : num :=
  match a, b with
  | Some x, Some y => if Qeq_bool y 0 then None else Some (x / y)%Q
  | _, _ => None
  end.
Definition nle (a b : num) : bool :=
  match a, b with Some x, Some y => Qle_bool x y | _, _ => false end.
Definition nlt (a b : num) : bool :=
  match a, b with Some x, Some y => negb (Qle_bool y x) | _, _ => false end.
Definition nabs (a : num) : num :=
  match a with Some x => Some (Qabs x) | None => None end.

(** [Math.round]: the nearest integer, a half rounds up. *)
Definition Math_round (a : num) : option Z :=
  match a with Some x => Some (Qfloor (x + (1 # 2))%Q) | None => None end.

(** A rounded number inside a template literal. *)
Definition show_rounded (z : option Z) : string :=
  match z with
  | Some n => pretty n
  | None => "NaN"
  end.

(** *** Tickets *)

(** A ticket as the dashboard receives it. [created_at] is the time value
    of [new Date(ticket.created_at)] in milliseconds, [None] when the date
    is invalid, which is what a missing field gives. *)
Record ticket := {
  ticket_id : Z;
  status : option string;
  priority : option string;
  created_at : option Z;
  assignee_id : option Z;
  sla_metrics : option sla_info
}.

(** [x || d] on a string that may be missing: the empty string is false. *)
Definition str_or (x : option string) (d : string) : string :=
  match x with
  | Some s => if decide (s = "") then d else s
  | None => d
  end.

(** [['solved', 'closed'].includes(x)] *)
Definition is_terminal (x : option string) : bool :=
  bool_decide (x = Some "solved") || bool_decide (x = Some "closed").

(** *** getSLAStatus *)

(** The object [getSLAStatus] returns. [remaining] is [None] for [null];
    the fields a branch does not set are [None]. *)
Record sla := {
  sla_status : string;
  sla_label : string;
  remaining : option num;
  overdue : option bool;
  sla_policy_name : option string;
  metricType : option string;
  sla_fulfilled : option bool
}.

Definition ageMinutes (now : Z) (t : ticket) : num :=
  ndiv (nsub (num_of_Z now) (from_option num_of_Z NaN (created_at t)))
       (num_of_Z (1000 * 60)).

Definition slaTargetMinutes (m : sla_info) : num :=
  ndiv (num_of_Z (target_seconds m)) (num_of_Z 60).

Definition remainingMinutes (now : Z) (t : ticket) (m : sla_info) : num :=
  nsub (slaTargetMinutes m) (ageMinutes now t).

Definition percentRemaining (now : Z) (t : ticket) (m : sla_info) : num :=
  nmul (ndiv (remainingMinutes now t m) (slaTargetMinutes m)) (num_of_Z 100).

Definition metricLabel (m : sla_info) : string :=
  if decide (metric_type m = "resolution_time") then "Resolution" else "Reply".

Definition getSLAStatus (now : Z) (t : ticket) : sla :=
  let slaMetrics := sla_metrics t in
  if is_terminal (status t) then
    match slaMetrics with
    | Some m =>
        if breached m then
          {| sla_status := "breach"; sla_label := "Breached";
             remaining := None; overdue := None; sla_policy_name := None;
             metricType := Some (metric_type m);
             sla_fulfilled := Some (fulfilled m) |}
        else
          {| sla_status := "ok"; sla_label := "Met";
             remaining := None; overdue := None; sla_policy_name := None;
             metricType := Some (metric_type m);
             sla_fulfilled := Some (fulfilled m) |}
    | None =>
        {| sla_status := "ok"; sla_label := "Resolved";
           remaining := None; overdue := None; sla_policy_name := None;
           metricType := None; sla_fulfilled := None |}
    end
  else
    match slaMetrics with
    | Some m =>
        if decide (target_seconds m ≠ 0) then
          let remaining_ := remainingMinutes now t m in
          if breached m || nle remaining_ (num_of_Z 0) then
            {| sla_status := "breach"; sla_label := "Breached";
               remaining := Some (nabs remaining_); overdue := Some true;
               sla_policy_name := Some (policy_title m);
               metricType := Some (metricLabel m); sla_fulfilled := None |}
          else if nle (percentRemaining now t m) (num_of_Z 25) then
            {| sla_status := "warning"; sla_label := "At Risk";
               remaining := Some remaining_; overdue := Some false;
               sla_policy_name := Some (policy_title m);
               metricType := Some (metricLabel m); sla_fulfilled := None |}
          else
            {| sla_status := "ok"; sla_label := "On Track";
               remaining := Some remaining_; overdue := Some false;
               sla_policy_name := Some (policy_title m);
               metricType := Some (metricLabel m); sla_fulfilled := None |}
        else
          {| sla_status := "none"; sla_label := "No SLA";
             remaining := None; overdue := None; sla_policy_name := None;
             metricType := None; sla_fulfilled := None |}
    | None =>
        {| sla_status := "none"; sla_label := "No SLA";
           remaining := None; overdue := None; sla_policy_name := None;
           metricType := None; sla_fulfilled := None |}
    end.

(** *** formatSLATime and renderSLABadge *)

Definition formatSLATime (minutes : num) : string :=
  if nlt minutes (num_of_Z 60) then
    show_rounded (Math_round minutes) +:+ "m"
  else if nlt minutes (num_of_Z 1440) then
    show_rounded (Math_round (ndiv minutes (num_of_Z 60))) +:+ "h"
  else
    show_rounded (Math_round (ndiv minutes (num_of_Z 1440))) +:+ "d".

(** The double quote of the HTML attributes. *)
Definition dq : string := String (Ascii.ascii_of_nat 34) EmptyString.

(** [parts.join(', ')] *)
Fixpoint join_comma (parts : list string) : string :=
  match parts with
  | [] => EmptyString
  | [p] => p
  | p :: ps => p +:+ ", " +:+ join_comma ps
  end.

(** [if (x) parts.push(prefix + x)]: a missing or empty [x] pushes nothing. *)
Definition tooltip_part (prefix : string) (x : option string) : list string :=
  match x with
  | Some s => if decide (s = EmptyString) then [] else [prefix +:+ s]
  | None => []
  end.

Definition renderSLABadge (now : Z) (t : ticket) : string :=
  let sla := getSLAStatus now t in
  if bool_decide (sla_status sla = "breach")
     && bool_decide (metricType sla ≠ Some "Resolution")
  then EmptyString
  else
    let timeText :=
      match remaining sla with
      | Some r =>
          if default false (overdue sla) then "+" +:+ formatSLATime r
          else formatSLATime r
      | None => EmptyString
      end in
    let badgeText :=
      if decide (timeText = EmptyString) then sla_label sla
      else sla_label sla +:+ " (" +:+ timeText +:+ ")" in
    let tooltipParts :=
      tooltip_part "Policy: " (sla_policy_name sla)
      ++ tooltip_part "Metric: " (metricType sla) in
    let titleAttr :=
      if decide (tooltipParts = []) then EmptyString
      else "title=" +:+ dq +:+ join_comma tooltipParts +:+ dq in
    "<span class=" +:+ dq +:+ "sla-badge sla-" +:+ sla_status sla +:+ dq
      +:+ " " +:+ titleAttr +:+ ">" +:+ badgeText +:+ "</span>".

(** *** calculateStats *)

Record assignee_stats := {
  a_total : Z;
  a_urgent : Z;
  a_open : Z
}.

(** [stats.sla] *)
Record sla_counts := {
  sla_breached : Z;
  sla_atRisk : Z;
  sla_onTrack : Z
}.

(** The [stats] object. Its number-valued properties ([total], the
    priority and status counters, [unassigned]) are the map [counters],
    which [stats[priority]] and [stats[status]] index; the two
    object-valued properties are fields of their own. A priority or a
    status that names one of those two or an inherited property of the
    object is outside the model; the ticketing API has no such value. *)
Record stats := {
  counters : gmap string Z;
  byAssignee : gmap Z assignee_stats;
  sla_bucket : sla_counts
}.

Definition init_stats (tickets : list ticket) : stats :=
  {| counters :=
       <["total" := Z.of_nat (length tickets)]>
       (<["urgent" := 0]> (<["high" := 0]> (<["normal" := 0]> (<["low" := 0]>
       (<["new" := 0]> (<["open" := 0]> (<["pending" := 0]>
       (<["solved" := 0]> (<["closed" := 0]> (<["unassigned" := 0]> ∅))))))))));
     byAssignee := ∅;
     sla_bucket := {| sla_breached := 0; sla_atRisk := 0; sla_onTrack := 0 |} |}.

(** [stats[k] = (stats[k] || 0) + 1] *)
Definition bump (c : gmap string Z) (k : string) : gmap string Z :=
  <[k := default 0 (c !! k) + 1]> c.

(** [slaMetrics && slaMetrics.metric_type === 'resolution_time'] *)
Definition isResolutionSLA (t : ticket) : bool :=
  match sla_metrics t with
  | Some m => bool_decide (metric_type m = "resolution_time")
  | None => false
  end.

(** The SLA block of the loop body: nothing is counted for a ticket whose
    status is solved or closed, nor for one whose evaluation is not a
    resolution_time one. *)
Definition count_sla (now : Z) (b : sla_counts) (status_ : string)
    (t : ticket) : sla_counts :=
  if is_terminal (Some status_) then b
  else
    let sla := getSLAStatus now t in
    if bool_decide (sla_status sla = "breach") && isResolutionSLA t then
      {| sla_breached := sla_breached b + 1; sla_atRisk := sla_atRisk b;
         sla_onTrack := sla_onTrack b |}
    else if bool_decide (sla_status sla = "warning") && isResolutionSLA t then
      {| sla_breached := sla_breached b; sla_atRisk := sla_atRisk b + 1;
         sla_onTrack := sla_onTrack b |}
    else if isResolutionSLA t then
      {| sla_breached := sla_breached b; sla_atRisk := sla_atRisk b;
         sla_onTrack := sla_onTrack b + 1 |}
    else b.

Definition count_assignee (e : assignee_stats) (priority_ status_ : string)
    : assignee_stats :=
  {| a_total := a_total e + 1;
     a_urgent := if decide (priority_ = "urgent") then a_urgent e + 1
                 else a_urgent e;
     a_open := if bool_decide (status_ ∈ ["new"; "open"; "pending"])
               then a_open e + 1 else a_open e |}.

Definition calculateStats_step (now : Z) (s : stats) (t : ticket) : stats :=
  let priority_ := str_or (priority t) "none" in
  let status_ := str_or (status t) "unknown" in
  let c := bump (bump (counters s) priority_) status_ in
  let b := count_sla now (sla_bucket s) status_ t in
  match assignee_id t with
  | Some a =>
      if decide (a = 0) then
        {| counters := bump c "unassigned"; byAssignee := byAssignee s;
           sla_bucket := b |}
      else
        let e := default {| a_total := 0; a_urgent := 0; a_open := 0 |}
                         (byAssignee s !! a) in
        {| counters := c;
           byAssignee := <[a := count_assignee e priority_ status_]> (byAssignee s);
           sla_bucket := b |}
  | None =>
      {| counters := bump c "unassigned"; byAssignee := byAssignee s;
         sla_bucket := b |}
  end.

Definition calculateStats (now : Z) (tickets : list ticket) : stats :=
  fold_left (calculateStats_step now) tickets (init_stats tickets).

(** *** detectNewTickets *)

(** [previousTickets] is an object used as a set of ticket ids. The loop
    fills [currentIds] and tests each ticket against [previousTickets],
    which is replaced only after the loop. *)
Definition detectNewTickets_step (previousTickets : gset Z)
    (acc : list ticket * gset Z) (t : ticket) : list ticket * gset Z :=
  (if decide (ticket_id t ∈ previousTickets) then acc.1 else acc.1 ++ [t],
   {[ticket_id t]} ∪ acc.2).

(** The result is [newTickets] and the new value of [previousTickets]. *)
Definition detectNewTickets (previousTickets : gset Z) (tickets : list ticket)
    : list ticket * gset Z :=
  fold_left (detectNewTickets_step previousTickets) tickets ([], ∅).

(** *** renderDashboard: the figures it computes *)

(** [tickets.filter(t => t.priority === 'urgent' &&
    !['solved', 'closed'].includes(t.status))] *)
Definition is_active_urgent (t : ticket) : bool :=
  bool_decide (priority t = Some "urgent") && negb (is_terminal (status t)).

Definition urgentTickets (tickets : list ticket) : list ticket :=
  List.filter is_active_urgent tickets.

(** [stats.total > 0 ? Math.round((stats.solved / stats.total) * 100) : 0];
    [None] is NaN. *)
Definition resolutionRate (s : stats) : option Z :=
  let total := default 0 (counters s !! "total") in
  let solved := default 0 (counters s !! "solved") in
  if bool_decide (0 < total) then
    Math_round (nmul (ndiv (num_of_Z solved) (num_of_Z total)) (num_of_Z 100))
  else Some 0.

(** The filters of the three SLA cards, which list the tickets behind the
    figure of a card: [!['solved', 'closed'].includes(t.status) &&
    t.sla_metrics && t.sla_metrics.metric_type === 'resolution_time' &&
    getSLAStatus(t).status === st], with [st] one of breach, warning, ok. *)
Definition sla_card_filter (now : Z) (st : string) (t : ticket) : bool :=
  negb (is_terminal (status t)) && isResolutionSLA t
  && bool_decide (sla_status (getSLAStatus now t) = st).

(** [showFilteredTickets]: [allTickets.filter(filterFn)] *)
Definition filteredTickets (filterFn : ticket → bool) (allTickets : list ticket)
    : list ticket :=
  List.filter filterFn allTickets.

(** Vocabulary of the statements: the ticket has no assignee, in the sense
    of [if (assignee)]. *)
Definition is_unassigned (t : ticket) : bool :=
  match assignee_id t with
  | Some a => bool_decide (a = 0)
  | None => true
  end.

Definition priority_of (t : ticket) : string := str_or (priority t) "none".
Definition status_of (t : ticket) : string := str_or (status t) "unknown".

(** The figure of the Open Tickets card,
    [(stats.open || 0) + (stats.new || 0) + (stats.pending || 0)], and the
    filter of its list, [['open', 'new', 'pending'].includes(t.status)]. *)
Definition openCardValue (s : stats) : Z :=
  default 0 (counters s !! "open") + default 0 (counters s !! "new")
  + default 0 (counters s !! "pending").

Definition is_open (t : ticket) : bool :=
  bool_decide (status t ∈ [Some "open"; Some "new"; Some "pending"]).

(** The figure of a priority card, [stats.urgent || 0] and the like, and
    the filter of its list, [t.priority === 'urgent'] and the like. *)
Definition priorityCardValue (s : stats) (p : string) : Z :=
  default 0 (counters s !! p).

Definition has_priority (p : string) (t : ticket) : bool :=
  bool_decide (priority t = Some p).

End Dashboard.

(** ** scripts/zendesk_server.py: handle_api_request *)

Module Proxy.
Import Server Dashboard.

Section enrichment.

(** [get_ticket_sla_data]: the metric events the ticketing API returns for
    a ticket id, [None] when the request fails. Within one run of the loop
    the answer is taken to depend on the id only. *)
Variable get_ticket_sla_data : Z → option (gmap string (list event)).

(** The body of the enrichment loop: a ticket with an id that is not zero,
    for which metric data came back and is not empty, gets [sla_metrics]
    set to what [parse_sla_metrics] returns, which may be [None]. *)
Definition enrich_ticket (t : ticket) : ticket :=
  if decide (ticket_id t = 0) then t
  else
    match get_ticket_sla_data (ticket_id t) with
    | Some sla_data =>
        if decide (sla_data = ∅) then t
        else
          {| ticket_id := ticket_id t; status := status t;
             priority := priority t; created_at := created_at t;
             assignee_id := assignee_id t;
             sla_metrics := parse_sla_metrics (Some sla_data) (status t) |}
    | None => t
    end.

(** [for ticket in tickets[:50]]: the loop changes the first 50 tickets in
    place; the whole list is sent to the dashboard. *)
Definition enrich (tickets : list ticket) : list ticket :=
  (enrich_ticket <$> take 50 tickets) ++ drop 50 tickets.

End enrichment.

End Proxy.

(** ** Concrete tickets for the examples *)

Module Fixtures.
Import Py.

(** A monitor ticket with an id, a status and a priority. *)
Definition mk_ticket (i : Z) (st pr : string) : Monitor.ticket :=
  <["id" := PyInt i]> (<["status" := PyStr st]> (<["priority" := PyStr pr]> ∅)).

(** A ticket on hold, and one the API sent without a priority. *)
Definition hold_ticket : Monitor.ticket := mk_ticket 1 "hold" "normal".

Definition no_priority_ticket : Monitor.ticket :=
  <["id" := PyInt 2]> (<["status" := PyStr "open"]> ∅).

Definition batch : list Monitor.ticket :=
  [mk_ticket 5 "open" "normal"; mk_ticket 6 "new" "urgent"].

(** Metric events: a six-hour policy applied, a breach, a fulfilment. *)
Definition ev_apply : Server.event :=
  {| Server.ev_type := Some "apply_sla"; Server.ev_time := Some "2024-05-01T08:00:00Z";
     Server.ev_sla :=
       Some {| Server.target_in_seconds := None; Server.target := Some 360;
               Server.sd_business_hours := Some true;
               Server.policy :=
                 Some {| Server.pol_title := Some "Gold";
                         Server.pol_id := Some 7 |} |} |}.

Definition ev_breach : Server.event :=
  {| Server.ev_type := Some "breach"; Server.ev_time := Some "2024-05-01T14:00:00Z";
     Server.ev_sla := None |}.

Definition ev_fulfill : Server.event :=
  {| Server.ev_type := Some "fulfill"; Server.ev_time := Some "2024-05-01T15:00:00Z";
     Server.ev_sla := None |}.

(** A breach event without a time, and an [apply_sla] event without its
    [sla] object: not what the API documents. *)
Definition ev_breach_untimed : Server.event :=
  {| Server.ev_type := Some "breach"; Server.ev_time := None;
     Server.ev_sla := None |}.

Definition metric_data_both : gmap string (list Server.event) :=
  <["resolution_time" := [ev_apply; ev_breach; ev_fulfill]]>
  (<["reply_time" := [ev_apply]]> ∅).

Definition metric_data_reply_only : gmap string (list Server.event) :=
  <["resolution_time" := [ev_breach]]> (<["reply_time" := [ev_apply]]> ∅).

(** Dashboard tickets. Times are in milliseconds; [hour] is one hour. *)
Definition hour : Z := 3600000.

Definition sla_6h (mt : string) (is_breached : bool) : Server.sla_info :=
  {| Server.metric_type := mt; Server.target_seconds := 21600;
     Server.business_hours := true; Server.policy_title := "Gold";
     Server.policy_id := Some 7; Server.fulfilled := false;
     Server.breached := is_breached;
     Server.breach_time :=
       if is_breached then Some "2024-05-01T14:00:00Z" else None |}.

Definition dash_ticket (st : string) (created : option Z)
    (m : option Server.sla_info) : Dashboard.ticket :=
  {| Dashboard.ticket_id := 1; Dashboard.status := Some st;
     Dashboard.priority := Some "urgent"; Dashboard.created_at := created;
     Dashboard.assignee_id := None; Dashboard.sla_metrics := m |}.

(** A six-hour policy whose target came out as zero seconds. *)
Definition sla_zero_target : Server.sla_info :=
  {| Server.metric_type := "resolution_time"; Server.target_seconds := 0;
     Server.business_hours := false; Server.policy_title := "Unknown";
     Server.policy_id := None; Server.fulfilled := false;
     Server.breached := false; Server.breach_time := None |}.

(** A previous snapshot that holds ticket 5, and a batch without it. *)
Definition prev_snapshot : Monitor.snapshot :=
  [(PyInt 5, mk_ticket 5 "open" "normal")].
Definition batch_without_5 : list Monitor.ticket :=
  [mk_ticket 6 "new" "urgent"].
(** Metric events exist for ticket 1 only. *)
Definition sla_source (i : Z) : option (gmap string (list Server.event)) :=
  if decide (i = 1) then Some metric_data_both else None.
(** An open urgent ticket of agent 42. *)
Definition assigned_ticket : Dashboard.ticket :=
  {| Dashboard.ticket_id := 7; Dashboard.status := Some "open";
     Dashboard.priority := Some "urgent"; Dashboard.created_at := Some 0;
     Dashboard.assignee_id := Some 42; Dashboard.sla_metrics := None |}.
(** The evaluation of the reply_time stream of [metric_data_reply_only]. *)
Definition reply_eval : Server.sla_info :=
  {| Server.metric_type := "reply_time"; Server.target_seconds := 21600;
     Server.business_hours := true; Server.policy_title := "Gold";
     Server.policy_id := Some 7; Server.fulfilled := false;
     Server.breached := false; Server.breach_time := None |}.

End Fixtures.

(** * Properties *)

(** ** Ordered dictionaries *)

Module PyFacts.
Import Py.

Section odict_facts.
Context {V : Type}.
Implicit Types (d : odict V) (k : pyval) (v : V).

Lemma od_get_None d k : od_get d k = None ↔ k ∉ od_keys d.
Proof.
  induction d as [|[k' v'] d IH]; simpl.
  - split; [intros _; apply not_elem_of_nil | done].
  - destruct (decide (k = k')) as [->|Hne].
    + split; [done | intros []; left].
    + rewrite IH. unfold od_keys. simpl. rewrite not_elem_of_cons. tauto.
Qed.

Lemma od_set_fresh d k v : k ∉ od_keys d → od_set d k v = d ++ [(k, v)].
Proof.
  induction d as [|[k' v'] d IH]; simpl; [done|].
  unfold od_keys; simpl. rewrite not_elem_of_cons. intros [Hne Hk].
  destruct (decide (k = k')); [done|]. by rewrite IH.
Qed.

Lemma od_set_keys_present d k v : k ∈ od_keys d → od_keys (od_set d k v) = od_keys d.
Proof.
  induction d as [|[k' v'] d IH]; simpl.
  - intros H. by apply elem_of_nil in H.
  - unfold od_keys in *; simpl. intros H.
    destruct (decide (k = k')) as [->|Hne]; simpl; [done|].
    apply elem_of_cons in H as [?|H]; [done|]. f_equal. by apply IH.
Qed.

Lemma od_set_keys d k v :
  od_keys (od_set d k v)
  = if decide (k ∈ od_keys d) then od_keys d else od_keys d ++ [k].
Proof.
  destruct (decide (k ∈ od_keys d)) as [Hin|Hout].
  - by apply od_set_keys_present.
  - rewrite od_set_fresh by done. unfold od_keys. by rewrite fmap_app.
Qed.

Lemma od_set_NoDup d k v : NoDup (od_keys d) → NoDup (od_keys (od_set d k v)).
Proof.
  intros Hd. rewrite od_set_keys. case_decide; [done|].
  apply NoDup_app. split_and!; [done| |apply NoDup_singleton].
  intros x Hx Hx'. apply list_elem_of_singleton in Hx'. by subst.
Qed.

Lemma od_get_elem d k v : NoDup (od_keys d) → (k, v) ∈ d → od_get d k = Some v.
Proof.
  induction d as [|[k' v'] d IH]; simpl.
  - intros _ H. by apply elem_of_nil in H.
  - unfold od_keys in *; simpl. intros Hnd H.
    apply NoDup_cons in Hnd as [Hk' Hnd].
    apply elem_of_cons in H as [Heq|H].
    + injection Heq as -> ->. by rewrite decide_True.
    + destruct (decide (k = k')) as [->|Hne]; [|by apply IH].
      exfalso. apply Hk'. apply list_elem_of_fmap. by exists (k', v).
Qed.

Lemma od_get_set_eq d k v : od_get (od_set d k v) k = Some v.
Proof.
  induction d as [|[k' v'] d IH]; simpl.
  - by rewrite decide_True.
  - destruct (decide (k = k')) as [->|Hne]; simpl.
    + by rewrite decide_True.
    + by rewrite decide_False.
Qed.

Lemma od_get_set_ne d k k' v : k ≠ k' → od_get (od_set d k v) k' = od_get d k'.
Proof.
  intros Hne. induction d as [|[k0 v0] d IH]; simpl.
  - by rewrite decide_False.
  - destruct (decide (k = k0)) as [->|Hne0]; simpl.
    + by rewrite !decide_False by done.
    + destruct (decide (k' = k0)); [done|]. apply IH.
Qed.
End odict_facts.

End PyFacts.

(** ** The monitor: statistics and change detection *)

Module MonitorSpec.
Import Py PyFacts Monitor.

Local Abbreviation ids_from :=
  (foldM (fun d t => i ← getitem t "id"; mret (od_set d i t))).

Lemma ids_from_cons (d0 : snapshot) (t : ticket) (B : list ticket) (i : pyval) :
  t !! "id" = Some i → ids_from d0 (t :: B) = ids_from (od_set d0 i t) B.
Proof. intros Hi. simpl. unfold getitem. by rewrite Hi. Qed.

Lemma ids_from_Ok_inv (d0 d : snapshot) (t : ticket) (B : list ticket) :
  ids_from d0 (t :: B) = Ok d →
  ∃ i, t !! "id" = Some i ∧ get t "id" = i ∧ ids_from (od_set d0 i t) B = Ok d.
Proof.
  destruct (t !! "id") as [i|] eqn:Hi.
  - rewrite (ids_from_cons _ _ _ i Hi). intros H. exists i.
    unfold get, get_or. by rewrite Hi.
  - simpl. unfold getitem. by rewrite Hi.
Qed.

Lemma ids_from_total (B : list ticket) (d0 : snapshot) :
  Forall has_id B → ∃ d, ids_from d0 B = Ok d.
Proof.
  intros HB. revert d0. induction HB as [|t B [i Hi] _ IH]; intros d0.
  - by exists d0.
  - rewrite (ids_from_cons _ _ _ i Hi). apply IH.
Qed.

Lemma ids_from_NoDup (B : list ticket) (d0 d : snapshot) :
  ids_from d0 B = Ok d → NoDup (od_keys d0) → NoDup (od_keys d).
Proof.
  revert d0. induction B as [|t B IH]; intros d0.
  - simpl. by intros [= ->].
  - intros (i & _ & _ & H)%ids_from_Ok_inv Hnd.
    apply (IH _ H). by apply od_set_NoDup.
Qed.

Lemma ids_from_keys (B : list ticket) (d0 d : snapshot) :
  ids_from d0 B = Ok d →
  ∀ k, k ∈ od_keys d ↔ k ∈ od_keys d0 ∨ k ∈ ticket_ids B.
Proof.
  revert d0. induction B as [|t B IH]; intros d0.
  - simpl. intros [= ->] k. unfold ticket_ids. simpl.
    rewrite elem_of_nil. tauto.
  - intros (i & _ & Hg & H)%ids_from_Ok_inv k.
    rewrite (IH _ H k), od_set_keys. unfold ticket_ids. simpl.
    rewrite Hg, elem_of_cons. case_decide as Hin.
    + split; [tauto|]. intros [?|[->|?]]; tauto.
    + rewrite elem_of_app, list_elem_of_singleton. tauto.
Qed.

Lemma ids_from_distinct (B : list ticket) (d0 d : snapshot) :
  ids_from d0 B = Ok d → NoDup (od_keys d0 ++ ticket_ids B) →
  d = d0 ++ ((fun t => (get t "id", t)) <$> B).
Proof.
  revert d0. induction B as [|t B IH]; intros d0.
  - simpl. intros [= ->] _. by rewrite app_nil_r.
  - intros (i & _ & Hg & H)%ids_from_Ok_inv Hnd.
    unfold ticket_ids in Hnd. simpl in Hnd. rewrite Hg in Hnd.
    assert (i ∉ od_keys d0) as Hfresh.
    { apply NoDup_app in Hnd as (_ & Hdisj & _). intros Hin.
      apply (Hdisj i Hin). left. }
    rewrite od_set_fresh in H by done.
    rewrite (IH _ H).
    + simpl. rewrite Hg. by rewrite <- app_assoc.
    + unfold od_keys. rewrite fmap_app. simpl. by rewrite <- app_assoc.
Qed.

(** Against the snapshot it was built from, an item changes nothing. *)
Lemma detect_step_same (D : snapshot) (ch : changes) (k : pyval) (t : ticket) :
  od_get D k = Some t → detect_step D ch (k, t) = ch.
Proof.
  intros H. unfold detect_step. rewrite H.
  rewrite !decide_False by (intros Hne; by apply Hne).
  by destruct ch.
Qed.

Lemma detect_fold_same (D : snapshot) (l : list (pyval * ticket)) (ch : changes) :
  Forall (fun kv => od_get D kv.1 = Some kv.2) l →
  fold_left (detect_step D) l ch = ch.
Proof.
  intros Hl. revert ch. induction Hl as [|[k t] l Hkt _ IH]; intros ch; [done|].
  simpl in Hkt. cbn [fold_left]. by rewrite (detect_step_same _ _ _ _ Hkt).
Qed.

(** Against the empty snapshot, every item is a new ticket. *)
Lemma detect_fold_empty (l : list (pyval * ticket)) (ch : changes) :
  fold_left (detect_step []) l ch
  = {| new_tickets := new_tickets ch ++ l.*2;
       status_changes := status_changes ch;
       priority_changes := priority_changes ch |}.
Proof.
  revert ch. induction l as [|[k t] l IH]; intros ch; cbn [fold_left].
  - simpl. rewrite app_nil_r. by destruct ch.
  - rewrite IH. simpl. by rewrite <- app_assoc.
Qed.

Lemma current_ids_total (B : list ticket) :
  Forall has_id B → ∃ d, current_ids B = Ok d.
Proof. apply ids_from_total. Qed.

Lemma detect_changes_snapshot (prev : snapshot) (B : list ticket) (d : snapshot) :
  current_ids B = Ok d →
  detect_changes prev B
  = Ok (fold_left (detect_step prev) (od_items d) no_changes, d).
Proof. intros H. unfold detect_changes. by rewrite H. Qed.

Lemma od_set_elem (d : snapshot) (k k' : pyval) (t t' : ticket) :
  (k', t') ∈ od_set d k t → (k', t') ∈ d ∨ (k', t') = (k, t).
Proof.
  induction d as [|[k0 t0] d IH]; simpl.
  - intros ->%list_elem_of_singleton. by right.
  - destruct (decide (k = k0)) as [->|Hne].
    + intros [->|H]%elem_of_cons; [by right | left; by right].
    + intros [->|H]%elem_of_cons; [left; left |].
      destruct (IH H) as [?|?]; [left; by right | by right].
Qed.

(** Every record of the mapping is stored under its own id. *)
Lemma ids_from_keyed (B : list ticket) (d0 d : snapshot) :
  ids_from d0 B = Ok d →
  Forall (fun kv => get kv.2 "id" = kv.1) d0 →
  Forall (fun kv => get kv.2 "id" = kv.1) d.
Proof.
  revert d0. induction B as [|t B IH]; intros d0.
  - simpl. by intros [= ->].
  - intros (i & _ & Hg & H)%ids_from_Ok_inv Hd0. apply (IH _ H).
    apply Forall_forall. intros [k' t'] [Hin| [= -> ->]]%od_set_elem; [|done].
    by apply (proj1 (Forall_forall _ _) Hd0 _ Hin).
Qed.

(** C8. Running [detect_changes] twice in a row on the same batch gives an
    empty delta the second time: for every batch whose tickets have an id
    and every prior snapshot, the first call returns, and the second call,
    run on the snapshot the first one stored, returns no new ticket, no
    status change and no priority change, and stores the same snapshot. *)
Theorem detect_changes_idempotent (prev : snapshot) (B : list ticket) :
  Forall has_id B →
  ∃ ch snap, detect_changes prev B = Ok (ch, snap)
             ∧ detect_changes snap B = Ok (no_changes, snap).
Proof.
  intros HB. destruct (current_ids_total B HB) as [d Hd].
  exists (fold_left (detect_step prev) (od_items d) no_changes), d.
  split; [by apply detect_changes_snapshot|].
  rewrite (detect_changes_snapshot _ _ _ Hd). do 2 f_equal.
  apply detect_fold_same, Forall_forall. intros [k t] Hin. simpl.
  apply od_get_elem; [|done].
  by apply (ids_from_NoDup B [] d Hd), NoDup_nil.
Qed.

Lemma detect_changes_idempotent_witness :
  Forall has_id Fixtures.batch
  ∧ ∃ ch snap, detect_changes [] Fixtures.batch = Ok (ch, snap)
               ∧ detect_changes snap Fixtures.batch = Ok (no_changes, snap).
Proof.
  assert (Forall has_id Fixtures.batch) as H
    by (repeat (apply Forall_cons_2; [by eexists|]); apply Forall_nil_2).
  split; [exact H | exact (detect_changes_idempotent [] Fixtures.batch H)].
Defined.

(** C9. On the first cycle the snapshot is empty. For a batch whose tickets
    have an id, [detect_changes] then returns the records of the id-to-record
    mapping of the batch as [new_tickets], with no status change and no
    priority change; every id of the batch is the id of a reported ticket;
    the stored snapshot is that mapping, whatever the snapshot was before;
    and when the ids of the batch are pairwise distinct, as ticket ids are,
    [new_tickets] is the batch itself and the mapping pairs each ticket of
    the batch with its id. *)
Theorem detect_changes_first_cycle (B : list ticket) :
  Forall has_id B →
  ∃ snap,
    current_ids B = Ok snap
    ∧ detect_changes init_previous_tickets B
      = Ok ({| new_tickets := od_values snap; status_changes := [];
               priority_changes := [] |}, snap)
    ∧ (∀ t, t ∈ B → ∃ t', t' ∈ od_values snap ∧ get t' "id" = get t "id")
    ∧ (∀ prev, ∃ ch, detect_changes prev B = Ok (ch, snap))
    ∧ (NoDup (ticket_ids B) →
       od_values snap = B ∧ snap = (fun t => (get t "id", t)) <$> B).
Proof.
  intros HB. destruct (current_ids_total B HB) as [d Hd].
  exists d. split_and!; [done| | | |].
  - rewrite (detect_changes_snapshot _ _ _ Hd).
    unfold init_previous_tickets. by rewrite detect_fold_empty.
  - intros t Ht.
    assert (get t "id" ∈ od_keys d) as Hk.
    { apply (ids_from_keys B [] d Hd). right.
      apply list_elem_of_fmap. by exists t. }
    apply list_elem_of_fmap in Hk as ([k t'] & Hk & Hin). simpl in Hk.
    exists t'. split.
    + apply list_elem_of_fmap. by exists (k, t').
    + rewrite Hk.
      apply (proj1 (Forall_forall _ _)
               (ids_from_keyed B [] d Hd (Forall_nil_2 _)) _ Hin).
  - intros prev. eexists. by apply detect_changes_snapshot.
  - intros Hnd.
    assert (d = (fun t => (get t "id", t)) <$> B) as ->.
    { by apply (ids_from_distinct B [] d Hd). }
    split; [|done]. unfold od_values. rewrite <- list_fmap_compose.
    apply list_fmap_id.
Qed.

Lemma detect_changes_first_cycle_witness :
  Forall has_id Fixtures.batch
  ∧ ∃ snap,
      current_ids Fixtures.batch = Ok snap
      ∧ detect_changes init_previous_tickets Fixtures.batch
        = Ok ({| new_tickets := od_values snap; status_changes := [];
                 priority_changes := [] |}, snap)
      ∧ (∀ t, t ∈ Fixtures.batch →
           ∃ t', t' ∈ od_values snap ∧ get t' "id" = get t "id")
      ∧ (∀ prev, ∃ ch, detect_changes prev Fixtures.batch = Ok (ch, snap))
      ∧ (NoDup (ticket_ids Fixtures.batch) →
         od_values snap = Fixtures.batch
         ∧ snap = (fun t => (get t "id", t)) <$> Fixtures.batch).
Proof.
  assert (Forall has_id Fixtures.batch) as H
    by (repeat (apply Forall_cons_2; [by eexists|]); apply Forall_nil_2).
  split; [exact H | exact (detect_changes_first_cycle Fixtures.batch H)].
Defined.

(** The scenario of two polls: ticket 5 goes from open to pending. *)
Example detect_changes_open_to_pending :
  ∃ ch snap,
    detect_changes [(PyInt 5, Fixtures.mk_ticket 5 "open" "normal")]
                   [Fixtures.mk_ticket 5 "pending" "normal"] = Ok (ch, snap)
    ∧ new_tickets ch = []
    ∧ status_changes ch
      = [{| sc_ticket := Fixtures.mk_ticket 5 "pending" "normal";
            old_status := PyStr "open"; new_status := PyStr "pending" |}]
    ∧ priority_changes ch = [].
Proof. do 2 eexists. split; [reflexivity|]. by vm_compute. Qed.

(** A batch with one id twice: the mapping keeps the later record, and the
    earlier one is not among the new tickets. *)
Example detect_changes_duplicate_id :
  ∃ ch snap,
    detect_changes [] [Fixtures.mk_ticket 5 "open" "normal";
                       Fixtures.mk_ticket 5 "new" "urgent"] = Ok (ch, snap)
    ∧ new_tickets ch = [Fixtures.mk_ticket 5 "new" "urgent"].
Proof. do 2 eexists. split; [reflexivity|]. by vm_compute. Qed.

(** On a batch whose priorities and statuses all have a counter,
    [get_stats] returns the counts. *)
Example get_stats_batch :
  ∃ s, get_stats Fixtures.batch = Ok s
       ∧ s !! "total" = Some (Count 2)
       ∧ s !! "open" = Some (Count 1)
       ∧ s !! "new" = Some (Count 1)
       ∧ s !! "urgent" = Some (Count 1)
       ∧ s !! "normal" = Some (Count 1).
Proof. eexists. split; [reflexivity|]. by vm_compute. Qed.

(** C10. [get_stats] raises on a ticket the API can send: a ticket on hold
    raises [KeyError('hold')], because [stats] has no [hold] counter, and a
    ticket without a priority raises [KeyError('none')], because the
    default ['none'] is not a key of [stats] either. *)
Theorem get_stats_raises_KeyError :
  get_stats [Fixtures.hold_ticket] = Raise (KeyError (PyStr "hold"))
  ∧ get_stats [Fixtures.no_priority_ticket] = Raise (KeyError (PyStr "none")).
Proof. split; by vm_compute. Qed.

End MonitorSpec.

(** ** The server: parse_sla_metrics *)

Module ServerSpec.
Import Server.

Lemma find_apply_sla_metric_type (mt : string) (events : list event) (i : sla_info) :
  find_apply_sla mt events = Some i → metric_type i = mt.
Proof.
  induction events as [|e es IH]; simpl; [done|].
  case_decide; [|done]. destruct (ev_sla e); [|done]. by intros [= <-].
Qed.

Lemma find_apply_sla_has_event (mt : string) (events : list event) :
  is_Some (find_apply_sla mt events) → has_event "apply_sla" events.
Proof.
  unfold has_event. induction events as [|e es IH]; simpl.
  - by intros [? ?].
  - case_decide as He; [intros _; by left|].
    intros H. right. by apply IH.
Qed.


Lemma eval_stream_is_Some (mt : string) (events : list event) :
  is_Some (eval_stream mt events) ↔ is_Some (find_apply_sla mt events).
Proof.
  unfold eval_stream. destruct (find_apply_sla mt events); simpl.
  - split; intros _; by eexists.
  - done.
Qed.

Lemma eval_stream_metric_type (mt : string) (events : list event) (i : sla_info) :
  eval_stream mt events = Some i → metric_type i = mt.
Proof.
  unfold eval_stream.
  destruct (find_apply_sla mt events) as [i0|] eqn:Hf; simpl; [|done].
  intros [= <-]. simpl. by apply (find_apply_sla_metric_type mt events).
Qed.

(** The two turns of the loop, written out. *)
Lemma parse_loop_two (md : gmap string (list event)) :
  parse_loop md ["resolution_time"; "reply_time"]
  = match md !! "resolution_time" ≫= eval_stream "resolution_time" with
    | Some i => Some i
    | None => md !! "reply_time" ≫= eval_stream "reply_time"
    end.
Proof.
  simpl. destruct (md !! "resolution_time") as [evs|]; simpl.
  - destruct (eval_stream "resolution_time" evs); [done|].
    destruct (md !! "reply_time") as [evs'|]; simpl; [|done].
    by destruct (eval_stream "reply_time" evs').
  - destruct (md !! "reply_time") as [evs'|]; simpl; [|done].
    by destruct (eval_stream "reply_time" evs').
Qed.

Lemma parse_sla_metrics_two (md : gmap string (list event)) (st : option string) :
  parse_sla_metrics (Some md) st
  = match md !! "resolution_time" ≫= eval_stream "resolution_time" with
    | Some i => Some i
    | None => md !! "reply_time" ≫= eval_stream "reply_time"
    end.
Proof.
  unfold parse_sla_metrics. case_decide as Hmd.
  - subst md. by rewrite !lookup_empty.
  - apply parse_loop_two.
Qed.





(** The fallback at work: the resolution_time stream has no [apply_sla]
    event, so the evaluation comes from the reply_time stream. *)
Example parse_sla_metrics_fallback :
  parse_sla_metrics (Some Fixtures.metric_data_reply_only) (Some "open")
  = Some {| metric_type := "reply_time"; target_seconds := 21600;
            business_hours := true; policy_title := "Gold";
            policy_id := Some 7; fulfilled := false; breached := false;
            breach_time := None |}.
Proof. by vm_compute. Qed.

Example parse_sla_metrics_no_data :
  parse_sla_metrics None (Some "open") = None
  ∧ parse_sla_metrics (Some ∅) (Some "open") = None.
Proof. by vm_compute. Qed.





(** Both flags on one stream: a breach and a later fulfilment. *)
Example eval_stream_breach_then_fulfill :
  (fun i => (breached i, fulfilled i))
    <$> eval_stream "resolution_time"
          [Fixtures.ev_apply; Fixtures.ev_breach; Fixtures.ev_fulfill]
  = Some (true, true).
Proof. by vm_compute. Qed.

(** The flag is read off the time of the last [breach] event: an event
    without a time leaves it false. *)
Example eval_stream_breach_untimed :
  breached
    <$> eval_stream "resolution_time"
          [Fixtures.ev_apply; Fixtures.ev_breach_untimed]
  = Some false.
Proof. by vm_compute. Qed.

End ServerSpec.

(** ** The dashboard: classification, badge and SLA buckets *)

Module DashboardSpec.
Import Server Dashboard.

(** *** Arithmetic of the open branch *)

Lemma inject_Z_nonzero (z : Z) : z ≠ 0 → ¬ (inject_Z z == 0)%Q.
Proof. unfold Qeq. simpl. lia. Qed.

Lemma ndiv_nonzero (x y : Q) :
  ¬ (y == 0)%Q → ndiv (Some x) (Some y) = Some (x / y)%Q.
Proof.
  intros Hy. unfold ndiv. destruct (Qeq_bool y 0) eqn:E; [|done].
  by apply Qeq_bool_iff in E.
Qed.

Lemma slaTargetMinutes_eq (m : sla_info) :
  slaTargetMinutes m = Some (inject_Z (target_seconds m) / 60)%Q.
Proof. unfold slaTargetMinutes, num_of_Z. by rewrite ndiv_nonzero. Qed.

Lemma slaTargetMinutes_nonzero (m : sla_info) :
  target_seconds m ≠ 0 → ¬ (inject_Z (target_seconds m) / 60 == 0)%Q.
Proof.
  intros HT%inject_Z_nonzero HQ. apply HT.
  rewrite <- (Qmult_div_r (inject_Z (target_seconds m)) 60) by done.
  rewrite HQ. ring.
Qed.

Lemma ageMinutes_eq (now c : Z) (t : ticket) :
  created_at t = Some c →
  ageMinutes now t = Some ((inject_Z now - inject_Z c) / 60000)%Q.
Proof.
  intros Hc. unfold ageMinutes, num_of_Z. rewrite Hc. cbn [from_option nsub].
  by rewrite ndiv_nonzero.
Qed.

Lemma ageMinutes_missing (now : Z) (t : ticket) :
  created_at t = None → ageMinutes now t = NaN.
Proof. intros Hc. unfold ageMinutes. by rewrite Hc. Qed.

Lemma remainingMinutes_eq (now c : Z) (t : ticket) (m : sla_info) :
  created_at t = Some c →
  remainingMinutes now t m
  = Some (inject_Z (target_seconds m) / 60
          - (inject_Z now - inject_Z c) / 60000)%Q.
Proof.
  intros Hc. unfold remainingMinutes.
  by rewrite slaTargetMinutes_eq, (ageMinutes_eq now c t Hc).
Qed.

Lemma percentRemaining_eq (now c : Z) (t : ticket) (m : sla_info) :
  created_at t = Some c → target_seconds m ≠ 0 →
  percentRemaining now t m
  = Some ((inject_Z (target_seconds m) / 60
           - (inject_Z now - inject_Z c) / 60000)
          / (inject_Z (target_seconds m) / 60) * 100)%Q.
Proof.
  intros Hc HT. unfold percentRemaining.
  rewrite (remainingMinutes_eq now c t m Hc), slaTargetMinutes_eq.
  by rewrite ndiv_nonzero by by apply slaTargetMinutes_nonzero.
Qed.

(** Division by a constant, in the form [lra] takes. *)
Ltac const_div :=
  unfold Qdiv;
  change (/ 60)%Q with (1 # 60)%Q;
  change (/ 60000)%Q with (1 # 60000)%Q;
  change (/ 1000)%Q with (1 # 1000)%Q.

Lemma inject_Z_minus (a b : Z) :
  (inject_Z (a - b) == inject_Z a - inject_Z b)%Q.
Proof. unfold Z.sub. by rewrite inject_Z_plus, inject_Z_opp. Qed.



(** The open branch of [getSLAStatus], for a ticket with a creation time
    and a target that is not zero. *)
Lemma getSLAStatus_open (now c : Z) (t : ticket) (m : sla_info) :
  is_terminal (status t) = false →
  sla_metrics t = Some m →
  target_seconds m ≠ 0 →
  created_at t = Some c →
  let T := inject_Z (target_seconds m) in
  let rem := (T / 60 - (inject_Z now - inject_Z c) / 60000)%Q in
  (sla_status (getSLAStatus now t), sla_label (getSLAStatus now t))
  = if breached m || Qle_bool rem 0 then ("breach", "Breached")
    else if Qle_bool (rem / (T / 60) * 100) 25 then ("warning", "At Risk")
    else ("ok", "On Track").
Proof.
  intros Hterm Hm HT Hc. unfold getSLAStatus.
  rewrite Hterm, Hm, decide_True by done.
  rewrite (remainingMinutes_eq now c t m Hc).
  rewrite (percentRemaining_eq now c t m Hc HT).
  unfold nle, num_of_Z. cbv zeta.
  change (inject_Z 0) with 0%Q. change (inject_Z 25) with 25%Q.
  destruct (breached m); cbn [orb]; [reflexivity|].
  destruct (Qle_bool _ 0); [reflexivity|].
  by destruct (Qle_bool _ 25).
Qed.



(** *** Terminal tickets and the badge *)

(** C1. For a solved or closed ticket whose evaluation is a breached
    resolution_time one, [getSLAStatus] returns the status breach with the
    label Breached, and puts the raw metric type in [metricType];
    [renderSLABadge] compares [metricType] with the label Resolution, so
    it returns the empty string: the breach is classified and no badge is
    rendered. *)
Theorem terminal_resolution_breach_badge (now : Z) (t : ticket) (m : sla_info) :
  is_terminal (status t) = true →
  sla_metrics t = Some m →
  metric_type m = "resolution_time" →
  breached m = true →
  sla_status (getSLAStatus now t) = "breach"
  ∧ sla_label (getSLAStatus now t) = "Breached"
  ∧ metricType (getSLAStatus now t) = Some "resolution_time"
  ∧ renderSLABadge now t = "".
Proof.
  intros Hterm Hm Hmt Hb. unfold renderSLABadge, getSLAStatus.
  rewrite Hterm, Hm, Hb. simpl. by rewrite Hmt.
Qed.

Lemma terminal_resolution_breach_badge_witness :
  sla_status
    (getSLAStatus (10 * Fixtures.hour)
       (Fixtures.dash_ticket "solved" (Some 0)
          (Some (Fixtures.sla_6h "resolution_time" true)))) = "breach"
  ∧ sla_label
      (getSLAStatus (10 * Fixtures.hour)
         (Fixtures.dash_ticket "solved" (Some 0)
            (Some (Fixtures.sla_6h "resolution_time" true)))) = "Breached"
  ∧ metricType
      (getSLAStatus (10 * Fixtures.hour)
         (Fixtures.dash_ticket "solved" (Some 0)
            (Some (Fixtures.sla_6h "resolution_time" true))))
    = Some "resolution_time"
  ∧ renderSLABadge (10 * Fixtures.hour)
      (Fixtures.dash_ticket "solved" (Some 0)
         (Some (Fixtures.sla_6h "resolution_time" true))) = "".
Proof.
  exact (terminal_resolution_breach_badge (10 * Fixtures.hour)
           (Fixtures.dash_ticket "solved" (Some 0)
              (Some (Fixtures.sla_6h "resolution_time" true)))
           (Fixtures.sla_6h "resolution_time" true)
           eq_refl eq_refl eq_refl eq_refl).
Defined.

(** The same breach on a ticket that is still open is rendered: the open
    branch sets [metricType] to the label. *)
Example open_resolution_breach_badge :
  renderSLABadge (10 * Fixtures.hour)
    (Fixtures.dash_ticket "new" (Some 0)
       (Some (Fixtures.sla_6h "resolution_time" true)))
  = "<span class=" +:+ dq +:+ "sla-badge sla-breach" +:+ dq +:+ " title="
    +:+ dq +:+ "Policy: Gold, Metric: Resolution" +:+ dq
    +:+ ">Breached (+4h)</span>".
Proof. by vm_compute. Qed.

(** *** Reply-time breaches *)

Lemma metricType_reply (now : Z) (t : ticket) (m : sla_info) :
  sla_metrics t = Some m → metric_type m = "reply_time" →
  metricType (getSLAStatus now t) ≠ Some "Resolution".
Proof.
  intros Hm Hmt. unfold getSLAStatus, metricLabel. rewrite Hm, Hmt.
  destruct (is_terminal (status t)).
  - by destruct (breached m).
  - case_decide; [|done].
    destruct (breached m || _); [done|]. by destruct (nle _ _).
Qed.

Lemma count_sla_not_resolution (now : Z) (b : sla_counts) (st : string) (t : ticket) :
  isResolutionSLA t = false → count_sla now b st t = b.
Proof.
  intros H. unfold count_sla. rewrite H, !andb_false_r.
  by destruct (is_terminal (Some st)).
Qed.

Lemma sla_bucket_step (now : Z) (s : stats) (t : ticket) :
  sla_bucket (calculateStats_step now s t)
  = count_sla now (sla_bucket s) (str_or (status t) "unknown") t.
Proof.
  unfold calculateStats_step.
  destruct (assignee_id t) as [a|]; [|done]. by case_decide.
Qed.

Lemma sla_bucket_fold (now : Z) (l : list ticket) (s : stats) :
  sla_bucket (fold_left (calculateStats_step now) l s)
  = fold_left (fun b t => count_sla now b (str_or (status t) "unknown") t)
              l (sla_bucket s).
Proof.
  revert s. induction l as [|t l IH]; intros s; cbn [fold_left]; [done|].
  by rewrite IH, sla_bucket_step.
Qed.

(** C2. A ticket whose evaluation is a reply_time one and which
    [getSLAStatus] classifies as breach has no badge: [renderSLABadge]
    returns the empty string; and it counts in no SLA bucket of
    [calculateStats]: the buckets of a batch with the ticket are those of
    the batch without it, the breached bucket among them. *)
Theorem reply_breach_not_surfaced
    (now : Z) (t : ticket) (m : sla_info) (pre post : list ticket) :
  sla_metrics t = Some m →
  metric_type m = "reply_time" →
  sla_status (getSLAStatus now t) = "breach" →
  renderSLABadge now t = ""
  ∧ sla_bucket (calculateStats now (pre ++ t :: post))
    = sla_bucket (calculateStats now (pre ++ post))
  ∧ sla_breached (sla_bucket (calculateStats now (pre ++ t :: post)))
    = sla_breached (sla_bucket (calculateStats now (pre ++ post))).
Proof.
  intros Hm Hmt Hst.
  assert (sla_bucket (calculateStats now (pre ++ t :: post))
          = sla_bucket (calculateStats now (pre ++ post))) as Hbucket.
  { unfold calculateStats. rewrite !sla_bucket_fold, !fold_left_app.
    cbn [fold_left]. rewrite count_sla_not_resolution; [done|].
    unfold isResolutionSLA. rewrite Hm, Hmt. by vm_compute. }
  split_and!; [|done|by rewrite Hbucket].
  unfold renderSLABadge. rewrite Hst.
  pose proof (metricType_reply now t m Hm Hmt) as Hne.
  by rewrite !bool_decide_eq_true_2.
Qed.

Lemma reply_breach_not_surfaced_witness :
  renderSLABadge (10 * Fixtures.hour)
    (Fixtures.dash_ticket "open" (Some 0)
       (Some (Fixtures.sla_6h "reply_time" true))) = ""
  ∧ sla_bucket
      (calculateStats (10 * Fixtures.hour)
         ([] ++ Fixtures.dash_ticket "open" (Some 0)
                  (Some (Fixtures.sla_6h "reply_time" true)) :: []))
    = sla_bucket (calculateStats (10 * Fixtures.hour) ([] ++ []))
  ∧ sla_breached
      (sla_bucket
         (calculateStats (10 * Fixtures.hour)
            ([] ++ Fixtures.dash_ticket "open" (Some 0)
                     (Some (Fixtures.sla_6h "reply_time" true)) :: [])))
    = sla_breached
        (sla_bucket (calculateStats (10 * Fixtures.hour) ([] ++ []))).
Proof.
  exact (reply_breach_not_surfaced (10 * Fixtures.hour)
           (Fixtures.dash_ticket "open" (Some 0)
              (Some (Fixtures.sla_6h "reply_time" true)))
           (Fixtures.sla_6h "reply_time" true) [] []
           eq_refl eq_refl eq_refl).
Defined.

(** *** Targets that are not positive *)

(** C5 as the specification states it fails: an open ticket whose evaluation has
    a target of zero seconds is classified none (No SLA), not breach. *)
Lemma zero_target_not_breached :
  is_terminal
    (status (Fixtures.dash_ticket "open" (Some 0) (Some Fixtures.sla_zero_target)))
  = false
  ∧ sla_metrics
      (Fixtures.dash_ticket "open" (Some 0) (Some Fixtures.sla_zero_target))
    = Some Fixtures.sla_zero_target
  ∧ target_seconds Fixtures.sla_zero_target <= 0
  ∧ sla_status
      (getSLAStatus Fixtures.hour
         (Fixtures.dash_ticket "open" (Some 0) (Some Fixtures.sla_zero_target)))
    = "none"
  ∧ sla_status
      (getSLAStatus Fixtures.hour
         (Fixtures.dash_ticket "open" (Some 0) (Some Fixtures.sla_zero_target)))
    ≠ "breach".
Proof. by vm_compute. Qed.

Lemma negative_minutes (T a : Q) :
  (T < 0)%Q → (0 <= a)%Q → (T / 60 - a / 60000 <= 0)%Q.
Proof. const_div. lra. Qed.

(** C5, amended. For a ticket that is not solved or closed and has an SLA
    evaluation: when the target is zero seconds, the guard on the target
    sends the ticket to the fallback and the status is none (No SLA);
    when the target is negative and the ticket has a creation time that is
    not after now, the status is breach (Breached); and whenever the
    target is not zero, the divisor of the percentage, the target in
    minutes, is a number that is not zero. *)
Theorem nonpositive_target_classification (now : Z) (t : ticket) (m : sla_info) :
  is_terminal (status t) = false →
  sla_metrics t = Some m →
  (target_seconds m = 0 →
   sla_status (getSLAStatus now t) = "none"
   ∧ sla_label (getSLAStatus now t) = "No SLA")
  ∧ (target_seconds m < 0 →
     ∀ c, created_at t = Some c → c <= now →
     sla_status (getSLAStatus now t) = "breach"
     ∧ sla_label (getSLAStatus now t) = "Breached")
  ∧ (target_seconds m ≠ 0 →
     ∃ q, slaTargetMinutes m = Some q ∧ ¬ (q == 0)%Q).
Proof.
  intros Hterm Hm. split_and!.
  - intros HT. unfold getSLAStatus. rewrite Hterm, Hm.
    by rewrite decide_False by (intros Hne; by apply Hne).
  - intros HT c Hc Hage.
    assert (target_seconds m ≠ 0) as HT0 by lia.
    pose proof (getSLAStatus_open now c t m Hterm Hm HT0 Hc) as Hopen.
    cbv zeta in Hopen.
    assert (Qle_bool (inject_Z (target_seconds m) / 60
                      - (inject_Z now - inject_Z c) / 60000) 0 = true) as Hle.
    { apply Qle_bool_iff, negative_minutes.
      - rewrite <- (Zlt_Qlt _ 0). lia.
      - rewrite <- inject_Z_minus, <- (Zle_Qle 0). lia. }
    rewrite Hle, orb_true_r in Hopen. by injection Hopen.
  - intros HT. eexists. split; [apply slaTargetMinutes_eq|].
    by apply slaTargetMinutes_nonzero.
Qed.

Lemma nonpositive_target_classification_witness :
  sla_status
    (getSLAStatus Fixtures.hour
       (Fixtures.dash_ticket "open" (Some 0) (Some Fixtures.sla_zero_target)))
  = "none"
  ∧ sla_label
      (getSLAStatus Fixtures.hour
         (Fixtures.dash_ticket "open" (Some 0) (Some Fixtures.sla_zero_target)))
    = "No SLA".
Proof.
  exact (proj1 (nonpositive_target_classification Fixtures.hour
                  (Fixtures.dash_ticket "open" (Some 0)
                     (Some Fixtures.sla_zero_target))
                  Fixtures.sla_zero_target eq_refl eq_refl) eq_refl).
Defined.

(** *** Tickets without a creation time *)

(** C6 as the specification states it fails: an open ticket without a creation
    time whose evaluation has the breached flag set is classified breach,
    not none. *)
Lemma missing_created_at_breached :
  is_terminal
    (status (Fixtures.dash_ticket "open" None
               (Some (Fixtures.sla_6h "resolution_time" true))))
  = false
  ∧ created_at
      (Fixtures.dash_ticket "open" None
         (Some (Fixtures.sla_6h "resolution_time" true)))
    = None
  ∧ sla_status
      (getSLAStatus Fixtures.hour
         (Fixtures.dash_ticket "open" None
            (Some (Fixtures.sla_6h "resolution_time" true))))
    = "breach"
  ∧ sla_status
      (getSLAStatus Fixtures.hour
         (Fixtures.dash_ticket "open" None
            (Some (Fixtures.sla_6h "resolution_time" true))))
    ≠ "none".
Proof. by vm_compute. Qed.

(** C6, amended. For a ticket that is not solved or closed and has no
    creation time: the status is none (No SLA) when no SLA evaluation is
    attached or when the target of the evaluation is zero; it is breach
    (Breached) when the evaluation has a target that is not zero and its
    breached flag is set, which needs no age. *)
Theorem missing_created_at_classification (now : Z) (t : ticket) :
  is_terminal (status t) = false →
  created_at t = None →
  (sla_metrics t = None →
   sla_status (getSLAStatus now t) = "none"
   ∧ sla_label (getSLAStatus now t) = "No SLA")
  ∧ (∀ m, sla_metrics t = Some m → target_seconds m = 0 →
     sla_status (getSLAStatus now t) = "none"
     ∧ sla_label (getSLAStatus now t) = "No SLA")
  ∧ (∀ m, sla_metrics t = Some m → target_seconds m ≠ 0 →
     breached m = true →
     sla_status (getSLAStatus now t) = "breach"
     ∧ sla_label (getSLAStatus now t) = "Breached").
Proof.
  intros Hterm Hc. split_and!.
  - intros Hm. unfold getSLAStatus. by rewrite Hterm, Hm.
  - intros m Hm HT. unfold getSLAStatus. rewrite Hterm, Hm.
    by rewrite decide_False by (intros Hne; by apply Hne).
  - intros m Hm HT Hb. unfold getSLAStatus.
    by rewrite Hterm, Hm, decide_True, Hb by done.
Qed.

Lemma missing_created_at_classification_witness :
  sla_status
    (getSLAStatus Fixtures.hour
       (Fixtures.dash_ticket "open" None
          (Some (Fixtures.sla_6h "resolution_time" true))))
  = "breach"
  ∧ sla_label
      (getSLAStatus Fixtures.hour
         (Fixtures.dash_ticket "open" None
            (Some (Fixtures.sla_6h "resolution_time" true))))
    = "Breached".
Proof.
  refine (proj2 (proj2 (missing_created_at_classification Fixtures.hour
                          (Fixtures.dash_ticket "open" None
                             (Some (Fixtures.sla_6h "resolution_time" true)))
                          eq_refl eq_refl))
            (Fixtures.sla_6h "resolution_time" true) eq_refl _ eq_refl).
  by vm_compute.
Defined.

(** Without the flag, the age is NaN, both comparisons are false and the
    last branch is taken: the ticket is shown as on track, with a
    remaining time that is not a number. *)
Example missing_created_at_on_track :
  sla_label
    (getSLAStatus Fixtures.hour
       (Fixtures.dash_ticket "open" None
          (Some (Fixtures.sla_6h "resolution_time" false))))
  = "On Track"
  ∧ remaining
      (getSLAStatus Fixtures.hour
         (Fixtures.dash_ticket "open" None
            (Some (Fixtures.sla_6h "resolution_time" false))))
    = Some NaN
  ∧ formatSLATime NaN = "NaNd".
Proof. by vm_compute. Qed.

End DashboardSpec.

(** ** Counting *)

Module CountingFacts.
Import Counting.

Lemma count_where_nil {A : Type} (P : A → Prop) `{!∀ x, Decision (P x)} :
  count_where P [] = 0.
Proof. done. Qed.

Lemma count_where_cons {A : Type} (P : A → Prop) `{!∀ x, Decision (P x)}
    (x : A) (l : list A) :
  count_where P (x :: l) = (if decide (P x) then 1 else 0) + count_where P l.
Proof.
  unfold count_where. rewrite filter_cons.
  destruct (decide (P x)); simpl; lia.
Qed.

Lemma count_where_one {A : Type} (P : A → Prop) `{!∀ x, Decision (P x)} (x : A) :
  count_where P [x] = if decide (P x) then 1 else 0.
Proof. rewrite count_where_cons, count_where_nil. lia. Qed.

Lemma count_where_split {A : Type} (P : A → Prop) `{!∀ x, Decision (P x)}
    (x : A) (l : list A) :
  count_where P (x :: l) = count_where P [x] + count_where P l.
Proof. by rewrite count_where_cons, count_where_one. Qed.

Lemma count_where_none {A : Type} (P : A → Prop) `{!∀ x, Decision (P x)}
    (l : list A) :
  Forall (fun x => ¬ P x) l → count_where P l = 0.
Proof.
  intros Hall. induction Hall as [|x l Hx _ IH]; [done|].
  rewrite count_where_cons, IH. by rewrite decide_False.
Qed.

Lemma count_where_bounds {A : Type} (P : A → Prop) `{!∀ x, Decision (P x)}
    (l : list A) :
  0 <= count_where P l ∧ count_where P l <= Z.of_nat (length l).
Proof.
  unfold count_where. pose proof (length_filter P l). lia.
Qed.

End CountingFacts.

(** ** The monitor: what get_stats accepts and counts *)

Module MonitorExtra.
Import Py PyFacts Counting CountingFacts Monitor MonitorSpec.

Lemma occurrences_cons (k : string) (t : ticket) (B : list ticket) :
  occurrences k (t :: B) = occurrences k [t] + occurrences k B.
Proof.
  unfold occurrences.
  rewrite (count_where_split (fun t => ticket_priority t = PyStr k)).
  rewrite (count_where_split (fun t => ticket_status t = PyStr k)). lia.
Qed.

Lemma stats_shape_ext (s : stats) (c c' : string → Z) (fr fr' ft ft' : pyval → Z) :
  (∀ k, c k = c' k) → (∀ r, fr r = fr' r) → (∀ r, ft r = ft' r) →
  stats_shape s c fr ft → stats_shape s c' fr' ft'.
Proof.
  intros Hc Hr Ht (H1 & H2 & (dr & Hdr & Hfr) & (dt & Hdt & Hft)).
  split_and!.
  - intros k Hk. rewrite <- Hc. by apply H1.
  - done.
  - exists dr. split; [done|]. intros r. by rewrite <- Hr.
  - exists dt. split; [done|]. intros r. by rewrite <- Ht.
Qed.

Lemma tally_keys_not_counters :
  ("by_requester" ∉ counter_keys) ∧ ("by_type" ∉ counter_keys).
Proof.
  split; intros H;
    repeat (apply elem_of_cons in H as [?|H]; [done|]);
    by apply elem_of_nil in H.
Qed.

Lemma init_stats_shape (B : list ticket) :
  stats_shape (init_stats B)
    (fun k => if decide (k = "total") then Z.of_nat (length B) else 0)
    (fun _ => 0) (fun _ => 0).
Proof.
  split_and!.
  - intros k Hk.
    repeat (apply elem_of_cons in Hk as [->|Hk]; [by vm_compute|]).
    by apply elem_of_nil in Hk.
  - intros k n H. unfold init_stats in H.
    repeat (apply lookup_insert_Some in H as [[<- H]|[_ H]];
            [first [by inversion H | by vm_compute; set_solver] |]).
    by rewrite lookup_empty in H.
  - exists ∅. split; [by vm_compute | done].
  - exists ∅. split; [by vm_compute | done].
Qed.

Lemma incr_Ok_inv (s s' : stats) (c : string → Z) (fr ft : pyval → Z) (v : pyval) :
  stats_shape s c fr ft → incr s v = Ok s' →
  ∃ k, k ∈ counter_keys ∧ v = PyStr k
       ∧ stats_shape s'
           (fun k' => c k' + if decide (k' = k) then 1 else 0) fr ft.
Proof.
  intros (H1 & H2 & (dr & Hdr & Hfr) & (dt & Hdt & Hft)) Hincr.
  destruct v as [| |k]; simpl in Hincr; try done.
  destruct (s !! k) as [[n|d]|] eqn:Hk; try done.
  injection Hincr as <-.
  pose proof (H2 k n Hk) as Hin. pose proof (H1 k Hin) as Hck.
  assert (n = c k) as -> by congruence.
  destruct tally_keys_not_counters as [Hr Ht].
  exists k. split; [done|]. split; [done|]. split_and!.
  - intros k' Hk'. rewrite lookup_insert. case_decide as E.
    + subst k'. by rewrite decide_True.
    + rewrite decide_False by done. rewrite Z.add_0_r. by apply H1.
  - intros k' n'. rewrite lookup_insert. case_decide as E.
    + by subst k'.
    + apply H2.
  - exists dr. split; [|done]. rewrite lookup_insert_ne; [done|].
    intros ->. by apply Hr.
  - exists dt. split; [|done]. rewrite lookup_insert_ne; [done|].
    intros ->. by apply Ht.
Qed.

Lemma incr_counter (s : stats) (c : string → Z) (fr ft : pyval → Z) (k : string) :
  stats_shape s c fr ft → k ∈ counter_keys → ∃ s', incr s (PyStr k) = Ok s'.
Proof.
  intros (H1 & _) Hk. simpl. rewrite (H1 k Hk). by eexists.
Qed.

Lemma tally_requester (s : stats) (c : string → Z) (fr ft : pyval → Z) (r : pyval) :
  stats_shape s c fr ft →
  ∃ s', tally s "by_requester" r = Ok s'
        ∧ stats_shape s' c
            (fun r' => fr r' + if decide (r' = r) then 1 else 0) ft.
Proof.
  intros (H1 & H2 & (dr & Hdr & Hfr) & (dt & Hdt & Hft)).
  destruct tally_keys_not_counters as [Hr Ht].
  unfold tally. rewrite Hdr. eexists. split; [done|]. split_and!.
  - intros k Hk. rewrite lookup_insert_ne; [by apply H1|].
    intros <-. by apply Hr.
  - intros k n. rewrite lookup_insert. case_decide; [done | apply H2].
  - eexists. split; [by rewrite lookup_insert_eq|].
    intros r'. rewrite lookup_insert. case_decide as E.
    + subst r'. rewrite decide_True by done. simpl. by rewrite Hfr.
    + rewrite decide_False by done. rewrite Z.add_0_r. apply Hfr.
  - exists dt. split; [|done]. by rewrite lookup_insert_ne.
Qed.

Lemma tally_type (s : stats) (c : string → Z) (fr ft : pyval → Z) (r : pyval) :
  stats_shape s c fr ft →
  ∃ s', tally s "by_type" r = Ok s'
        ∧ stats_shape s' c fr
            (fun r' => ft r' + if decide (r' = r) then 1 else 0).
Proof.
  intros (H1 & H2 & (dr & Hdr & Hfr) & (dt & Hdt & Hft)).
  destruct tally_keys_not_counters as [Hr Ht].
  unfold tally. rewrite Hdt. eexists. split; [done|]. split_and!.
  - intros k Hk. rewrite lookup_insert_ne; [by apply H1|].
    intros <-. by apply Ht.
  - intros k n. rewrite lookup_insert. case_decide; [done | apply H2].
  - exists dr. split; [|done]. by rewrite lookup_insert_ne.
  - eexists. split; [by rewrite lookup_insert_eq|].
    intros r'. rewrite lookup_insert. case_decide as E.
    + subst r'. rewrite decide_True by done. simpl. by rewrite Hft.
    + rewrite decide_False by done. rewrite Z.add_0_r. apply Hft.
Qed.

(** One turn of the loop, from a [stats] of the form the loop keeps. *)
Lemma get_stats_step_Ok_inv (s s' : stats) (c : string → Z)
    (fr ft : pyval → Z) (t : ticket) :
  stats_shape s c fr ft → get_stats_step s t = Ok s' →
  countable t
  ∧ stats_shape s'
      (fun k => c k + occurrences k [t])
      (fun r => fr r + count_where (fun t => get t "requester_id" = r) [t])
      (fun r => ft r + count_where (fun t => ticket_type t = r) [t]).
Proof.
  intros Hs Hstep. unfold get_stats_step in Hstep.
  destruct (incr s _) as [s1|] eqn:E1; [|done]. simpl in Hstep.
  destruct (incr_Ok_inv _ _ _ _ _ _ Hs E1) as (kp & Hkp & Hp & Hs1).
  destruct (incr s1 _) as [s2|] eqn:E2; [|done]. simpl in Hstep.
  destruct (incr_Ok_inv _ _ _ _ _ _ Hs1 E2) as (ks & Hks & Hst & Hs2).
  destruct (tally_requester _ _ _ _ (get t "requester_id") Hs2)
    as (s3 & E3 & Hs3).
  rewrite E3 in Hstep. simpl in Hstep.
  destruct (tally_type _ _ _ _ (get_or t "type" (PyStr "unknown")) Hs3)
    as (s4 & E4 & Hs4).
  rewrite E4 in Hstep. injection Hstep as <-.
  split; [split; [exists kp; split; [exact Hkp | exact Hp]
                 | exists ks; split; [exact Hks | exact Hst]] |].
  eapply stats_shape_ext; [| | |exact Hs4].
  - intros k. unfold occurrences. rewrite !count_where_one.
    fold (ticket_priority t) in Hp. fold (ticket_status t) in Hst.
    rewrite Hp, Hst.
    repeat case_decide; simplify_eq; lia.
  - intros r. rewrite count_where_one. repeat case_decide; simplify_eq; lia.
  - intros r. rewrite count_where_one. unfold ticket_type.
    repeat case_decide; simplify_eq; lia.
Qed.

Lemma get_stats_step_countable (s : stats) (c : string → Z)
    (fr ft : pyval → Z) (t : ticket) :
  stats_shape s c fr ft → countable t → ∃ s', get_stats_step s t = Ok s'.
Proof.
  intros Hs [(kp & Hkp & Hp) (ks & Hks & Hst)]. unfold get_stats_step.
  fold (ticket_priority t). fold (ticket_status t). rewrite Hp, Hst.
  destruct (incr_counter _ _ _ _ kp Hs Hkp) as [s1 E1]. rewrite E1. cbn [mbind result_bind].
  destruct (incr_Ok_inv _ _ _ _ _ _ Hs E1) as (k1 & ? & ? & Hs1).
  destruct (incr_counter _ _ _ _ ks Hs1 Hks) as [s2 E2]. rewrite E2. cbn [mbind result_bind].
  destruct (incr_Ok_inv _ _ _ _ _ _ Hs1 E2) as (k2 & ? & ? & Hs2).
  destruct (tally_requester _ _ _ _ (get t "requester_id") Hs2)
    as (s3 & E3 & Hs3).
  rewrite E3. cbn [mbind result_bind].
  destruct (tally_type _ _ _ _ (get_or t "type" (PyStr "unknown")) Hs3)
    as (s4 & E4 & _).
  by exists s4.
Qed.

Lemma get_stats_fold_inv (B : list ticket) (s s' : stats) (c : string → Z)
    (fr ft : pyval → Z) :
  stats_shape s c fr ft → foldM get_stats_step s B = Ok s' →
  Forall countable B
  ∧ stats_shape s'
      (fun k => c k + occurrences k B)
      (fun r => fr r + count_where (fun t => get t "requester_id" = r) B)
      (fun r => ft r + count_where (fun t => ticket_type t = r) B).
Proof.
  revert s c fr ft. induction B as [|t B IH]; intros s c fr ft Hs Hfold.
  - injection Hfold as <-. split; [done|].
    eapply stats_shape_ext; [| | |exact Hs]; intros; unfold occurrences;
      rewrite ?count_where_nil; lia.
  - simpl in Hfold.
    destruct (get_stats_step s t) as [s1|] eqn:E1; [|done]. simpl in Hfold.
    destruct (get_stats_step_Ok_inv _ _ _ _ _ _ Hs E1) as [Ht Hs1].
    destruct (IH _ _ _ _ Hs1 Hfold) as [HB Hs'].
    split; [by constructor|].
    eapply stats_shape_ext; [| | |exact Hs'].
    + intros k. rewrite (occurrences_cons k t B). lia.
    + intros r.
      rewrite (count_where_split (fun t => get t "requester_id" = r) t B). lia.
    + intros r. rewrite (count_where_split (fun t => ticket_type t = r) t B). lia.
Qed.

Lemma get_stats_fold_total (B : list ticket) (s : stats) (c : string → Z)
    (fr ft : pyval → Z) :
  stats_shape s c fr ft → Forall countable B →
  ∃ s', foldM get_stats_step s B = Ok s'.
Proof.
  intros Hs HB. revert s c fr ft Hs.
  induction HB as [|t B Ht _ IH]; intros s c fr ft Hs.
  - by exists s.
  - destruct (get_stats_step_countable _ _ _ _ t Hs Ht) as [s1 E1].
    cbn [foldM]. rewrite E1. cbn [mbind result_bind].
    destruct (get_stats_step_Ok_inv _ _ _ _ _ _ Hs E1) as [_ Hs1].
    by apply (IH _ _ _ _ Hs1).
Qed.

(** [get_stats] returns exactly on the batches whose priorities, with
    ['none'] for a missing one, and statuses, with ['unknown'], are all
    strings that name one of the ten [int] keys of [stats]; on every other
    batch it raises. *)
Theorem get_stats_returns_iff (B : list ticket) :
  (∃ s, get_stats B = Ok s) ↔ Forall countable B.
Proof.
  split.
  - intros [s Hs]. by apply (get_stats_fold_inv B _ _ _ _ _ (init_stats_shape B) Hs).
  - apply (get_stats_fold_total B _ _ _ _ (init_stats_shape B)).
Qed.

(** When [get_stats] returns, each counter holds the number of tickets
    with that priority plus the number with that status, and [total] the
    length of the batch on top of that. *)
Theorem get_stats_counts (B : list ticket) (s : stats) :
  get_stats B = Ok s →
  ∀ k, k ∈ counter_keys →
    s !! k = Some (Count ((if decide (k = "total")
                           then Z.of_nat (length B) else 0)
                          + occurrences k B)).
Proof.
  intros Hs k Hk.
  destruct (get_stats_fold_inv B _ _ _ _ _ (init_stats_shape B) Hs)
    as (_ & H1 & _).
  by apply H1.
Qed.

(** When [get_stats] returns, [by_requester] and [by_type] hold, for each
    requester id and each type, the number of tickets that have it;
    a missing [requester_id] counts under [None], a missing [type] under
    ['unknown']. *)
Theorem get_stats_tallies (B : list ticket) (s : stats) :
  get_stats B = Ok s →
  ∃ dr dt,
    s !! "by_requester" = Some (Tally dr)
    ∧ s !! "by_type" = Some (Tally dt)
    ∧ (∀ r, default 0 (dr !! r)
            = count_where (fun t => get t "requester_id" = r) B)
    ∧ (∀ r, default 0 (dt !! r) = count_where (fun t => ticket_type t = r) B).
Proof.
  intros Hs.
  destruct (get_stats_fold_inv B _ _ _ _ _ (init_stats_shape B) Hs)
    as (_ & _ & _ & (dr & Hdr & Hfr) & (dt & Hdt & Hft)).
  exists dr, dt. split_and!; try done.
Qed.

(** *** detect_changes: the three lists *)

Local Abbreviation ids_from :=
  (foldM (fun d t => i ← getitem t "id"; mret (od_set d i t))).

Lemma detect_fold_items (prev : snapshot) (l : list (pyval * ticket)) (ch : changes) :
  fold_left (detect_step prev) l ch
  = {| new_tickets := new_tickets ch ++ omap (new_item prev) l;
       status_changes := status_changes ch ++ omap (status_item prev) l;
       priority_changes := priority_changes ch ++ omap (priority_item prev) l |}.
Proof.
  revert ch. induction l as [|[k t] l IH]; intros ch; cbn [fold_left].
  - simpl. rewrite !app_nil_r. by destruct ch.
  - rewrite IH. unfold detect_step, new_item, status_item, priority_item.
    simpl. destruct (od_get prev k) as [p|]; simpl.
    + repeat case_decide; simpl; by rewrite <- ?app_assoc.
    + by rewrite <- app_assoc.
Qed.

Lemma omap_new_item (prev : snapshot) (B : list ticket) :
  omap (new_item prev) (item_of <$> B)
  = filter (fun t => od_get prev (get t "id") = None) B.
Proof.
  induction B as [|t B IH]; [done|].
  rewrite filter_cons, <- IH. simpl. unfold new_item at 1. simpl.
  destruct (od_get prev (get t "id")) eqn:E.
  - by rewrite decide_False.
  - by rewrite decide_True.
Qed.

Lemma omap_item_of {A : Type} (f : pyval * ticket → option A) (B : list ticket) :
  omap f (item_of <$> B) = omap (fun t => f (item_of t)) B.
Proof.
  induction B as [|t B IH]; [done|]. rewrite fmap_cons.
  change (omap f (item_of t :: (item_of <$> B)))
    with (match f (item_of t) with
          | Some y => y :: omap f (item_of <$> B)
          | None => omap f (item_of <$> B)
          end).
  rewrite IH. done.
Qed.

(** What [detect_changes] returns, from the mapping of the batch. *)
Lemma detect_changes_from_mapping (prev d : snapshot) (B : list ticket) :
  current_ids B = Ok d →
  detect_changes prev B
  = Ok ({| new_tickets := omap (new_item prev) d;
           status_changes := omap (status_item prev) d;
           priority_changes := omap (priority_item prev) d |}, d).
Proof.
  intros Hd. rewrite (detect_changes_snapshot _ _ _ Hd). unfold od_items.
  by rewrite detect_fold_items.
Qed.

Lemma current_ids_distinct (B : list ticket) :
  Forall has_id B → NoDup (ticket_ids B) → current_ids B = Ok (item_of <$> B).
Proof.
  intros HB Hnd. destruct (current_ids_total B HB) as [d Hd].
  rewrite Hd. f_equal. by apply (ids_from_distinct B [] d Hd).
Qed.

(** For a batch of tickets with pairwise distinct ids, the three lists
    [detect_changes] returns are, in batch order: the tickets whose id is
    not in the previous snapshot; for the tickets whose id is, a status
    entry when the status differs from the stored one, and a priority
    entry when the priority does. The snapshot pairs each ticket with its
    id, in batch order. *)
Theorem detect_changes_lists (prev : snapshot) (B : list ticket) :
  Forall has_id B → NoDup (ticket_ids B) →
  detect_changes prev B
  = Ok ({| new_tickets :=
             filter (fun t => od_get prev (get t "id") = None) B;
           status_changes := omap (fun t => status_item prev (item_of t)) B;
           priority_changes :=
             omap (fun t => priority_item prev (item_of t)) B |},
        item_of <$> B).
Proof.
  intros HB Hnd.
  rewrite (detect_changes_from_mapping prev _ B (current_ids_distinct B HB Hnd)).
  by rewrite omap_new_item, !omap_item_of.
Qed.

(** Whatever the batch and the previous snapshot, what [detect_changes]
    reports is sound: a ticket reported as new has an id the previous
    snapshot did not hold; a reported status change is about a ticket the
    previous snapshot held, gives the stored and the current status, and
    these differ; the same for a priority change. So no ticket is reported
    both as new and as changed, and no change is reported with equal old
    and new values. *)
Theorem detect_changes_sound
    (prev snap : snapshot) (B : list ticket) (ch : changes) :
  detect_changes prev B = Ok (ch, snap) →
  (∀ t, t ∈ new_tickets ch →
     od_get prev (get t "id") = None ∧ od_get snap (get t "id") = Some t)
  ∧ (∀ c, c ∈ status_changes ch →
       ∃ p, od_get prev (get (sc_ticket c) "id") = Some p
            ∧ old_status c = get p "status"
            ∧ new_status c = get (sc_ticket c) "status"
            ∧ old_status c ≠ new_status c)
  ∧ (∀ c, c ∈ priority_changes ch →
       ∃ p, od_get prev (get (pc_ticket c) "id") = Some p
            ∧ old_priority c = get p "priority"
            ∧ new_priority c = get (pc_ticket c) "priority"
            ∧ old_priority c ≠ new_priority c).
Proof.
  intros H. unfold detect_changes in H.
  destruct (current_ids B) as [d|] eqn:Hd; [|done]. simpl in H.
  injection H as <- <-. unfold od_items. rewrite detect_fold_items. simpl.
  pose proof (ids_from_keyed B [] d Hd (Forall_nil_2 _)) as Hkeyed.
  pose proof (ids_from_NoDup B [] d Hd (NoDup_nil_2)) as Hnd.
  rewrite Forall_forall in Hkeyed.
  split_and!.
  - intros t ([k t'] & Hin & Hitem)%list_elem_of_omap.
    pose proof (Hkeyed _ Hin) as Hk. simpl in Hk.
    unfold new_item in Hitem. simpl in Hitem.
    destruct (od_get prev k) eqn:E; [done|]. injection Hitem as ->.
    rewrite Hk. split; [done|]. by apply od_get_elem.
  - intros c ([k t'] & Hin & Hitem)%list_elem_of_omap.
    pose proof (Hkeyed _ Hin) as Hk. simpl in Hk.
    unfold status_item in Hitem. simpl in Hitem.
    destruct (od_get prev k) as [p|] eqn:E; [|done].
    case_decide as Hne; [|done]. injection Hitem as <-. simpl.
    exists p. by rewrite Hk.
  - intros c ([k t'] & Hin & Hitem)%list_elem_of_omap.
    pose proof (Hkeyed _ Hin) as Hk. simpl in Hk.
    unfold priority_item in Hitem. simpl in Hitem.
    destruct (od_get prev k) as [p|] eqn:E; [|done].
    case_decide as Hne; [|done]. injection Hitem as <-. simpl.
    exists p. by rewrite Hk.
Qed.

(** *** detect_changes: the snapshot *)

Lemma ids_from_app (B1 B2 : list ticket) (d0 : snapshot) :
  ids_from d0 (B1 ++ B2) = (ids_from d0 B1 ≫= fun d1 => ids_from d1 B2).
Proof.
  revert d0. induction B1 as [|t B1 IH]; intros d0; [done|].
  cbn [app foldM]. destruct (getitem t "id") as [i|]; [|done].
  cbn [mbind result_bind mret result_ret]. apply IH.
Qed.

Lemma ids_from_get_other (B : list ticket) (d0 d : snapshot) (k : pyval) :
  ids_from d0 B = Ok d → k ∉ ticket_ids B → od_get d k = od_get d0 k.
Proof.
  revert d0. induction B as [|t B IH]; intros d0.
  - simpl. by intros [= ->].
  - intros (i & _ & Hg & H)%ids_from_Ok_inv Hk.
    unfold ticket_ids in Hk. simpl in Hk. rewrite Hg in Hk.
    apply not_elem_of_cons in Hk as [Hne Hk].
    rewrite (IH _ H Hk). by apply od_get_set_ne.
Qed.

(** The mapping keeps, for each id, the last record of the batch with that
    id: a ticket after which no ticket of the batch has the same id is the
    one stored under its id. *)
Theorem current_ids_last_wins
    (B1 B2 : list ticket) (t : ticket) (i : pyval) (d : snapshot) :
  current_ids (B1 ++ t :: B2) = Ok d →
  t !! "id" = Some i →
  i ∉ ticket_ids B2 →
  od_get d i = Some t.
Proof.
  unfold current_ids. rewrite ids_from_app. intros H Hi Hout.
  destruct (ids_from [] B1) as [d1|]; [|done].
  cbn [mbind result_bind] in H.
  rewrite (ids_from_cons _ _ _ i Hi) in H.
  rewrite (ids_from_get_other B2 _ d i H Hout). apply od_get_set_eq.
Qed.

Lemma current_ids_lookup_None (B : list ticket) (d : snapshot) (k : pyval) :
  current_ids B = Ok d → (od_get d k = None ↔ k ∉ ticket_ids B).
Proof.
  intros Hd. rewrite od_get_None.
  pose proof (ids_from_keys B [] d Hd k) as Hk. unfold od_keys in Hk at 2.
  simpl in Hk. rewrite elem_of_nil in Hk. tauto.
Qed.

(** The stored snapshot holds the ids of the batch and no other: an id of
    the previous snapshot that is not in the batch is gone. *)
Theorem detect_changes_forgets
    (prev snap : snapshot) (B : list ticket) (ch : changes) (k : pyval) :
  detect_changes prev B = Ok (ch, snap) →
  (od_get snap k = None ↔ k ∉ ticket_ids B).
Proof.
  intros H. unfold detect_changes in H.
  destruct (current_ids B) as [d|] eqn:Hd; [|done]. simpl in H.
  injection H as _ <-. by apply current_ids_lookup_None.
Qed.

(** A ticket that was absent from one poll is reported as new when it
    comes back in the next, whether or not an earlier poll had seen it. *)
Theorem detect_changes_returning_ticket
    (prev s1 : snapshot) (B1 B2 : list ticket) (c1 : changes) (t : ticket) :
  detect_changes prev B1 = Ok (c1, s1) →
  Forall has_id B2 → NoDup (ticket_ids B2) →
  t ∈ B2 → get t "id" ∉ ticket_ids B1 →
  ∃ c2 s2, detect_changes s1 B2 = Ok (c2, s2) ∧ t ∈ new_tickets c2.
Proof.
  intros H1 HB2 Hnd Ht Hout.
  rewrite (detect_changes_from_mapping s1 _ B2 (current_ids_distinct B2 HB2 Hnd)).
  do 2 eexists. split; [done|]. simpl.
  rewrite omap_new_item. apply list_elem_of_filter. split; [|done].
  unfold detect_changes in H1.
  destruct (current_ids B1) as [d1|] eqn:Hd1; [|done]. simpl in H1.
  injection H1 as _ <-. by apply (current_ids_lookup_None B1).
Qed.

(** *** Instances *)

Lemma get_stats_counts_witness :
  ∃ s, get_stats Fixtures.batch = Ok s
       ∧ s !! "urgent"
         = Some (Count ((if decide ("urgent" = "total")
                         then Z.of_nat (length Fixtures.batch) else 0)
                        + occurrences "urgent" Fixtures.batch)).
Proof.
  eexists. split; [reflexivity|].
  apply (get_stats_counts Fixtures.batch _ eq_refl "urgent").
  apply elem_of_cons. right. apply elem_of_cons. by left.
Defined.

Lemma get_stats_tallies_witness :
  ∃ s dr dt,
    get_stats Fixtures.batch = Ok s
    ∧ s !! "by_requester" = Some (Tally dr)
    ∧ s !! "by_type" = Some (Tally dt)
    ∧ (∀ r, default 0 (dr !! r)
            = count_where (fun t => get t "requester_id" = r) Fixtures.batch)
    ∧ (∀ r, default 0 (dt !! r)
            = count_where (fun t => ticket_type t = r) Fixtures.batch).
Proof.
  eexists.
  destruct (get_stats_tallies Fixtures.batch _ eq_refl) as (dr & dt & H).
  exists dr, dt. split; [reflexivity | exact H].
Defined.

Lemma batch_has_ids : Forall has_id Fixtures.batch.
Proof.
  repeat (apply Forall_cons_2; [by eexists|]). apply Forall_nil_2.
Defined.

Lemma batch_ids_distinct : NoDup (ticket_ids Fixtures.batch).
Proof.
  apply NoDup_cons_2; [|apply NoDup_singleton].
  intros H%list_elem_of_singleton. by vm_compute in H.
Defined.

Lemma detect_changes_lists_witness :
  detect_changes Fixtures.prev_snapshot Fixtures.batch
  = Ok ({| new_tickets :=
             filter (fun t => od_get Fixtures.prev_snapshot (get t "id") = None)
                    Fixtures.batch;
           status_changes :=
             omap (fun t => status_item Fixtures.prev_snapshot (item_of t))
                  Fixtures.batch;
           priority_changes :=
             omap (fun t => priority_item Fixtures.prev_snapshot (item_of t))
                  Fixtures.batch |},
        item_of <$> Fixtures.batch).
Proof.
  exact (detect_changes_lists Fixtures.prev_snapshot Fixtures.batch
           batch_has_ids batch_ids_distinct).
Defined.

Lemma detect_changes_sound_witness :
  ∃ ch snap,
    detect_changes Fixtures.prev_snapshot Fixtures.batch = Ok (ch, snap)
    ∧ (∀ t, t ∈ new_tickets ch →
         od_get Fixtures.prev_snapshot (get t "id") = None
         ∧ od_get snap (get t "id") = Some t).
Proof.
  do 2 eexists. split; [reflexivity|].
  exact (proj1 (detect_changes_sound Fixtures.prev_snapshot _
                  Fixtures.batch _ eq_refl)).
Defined.

Lemma current_ids_last_wins_witness :
  ∃ d, current_ids ([Fixtures.mk_ticket 5 "open" "normal"]
                    ++ Fixtures.mk_ticket 5 "new" "urgent" :: []) = Ok d
       ∧ od_get d (PyInt 5) = Some (Fixtures.mk_ticket 5 "new" "urgent").
Proof.
  eexists. split; [reflexivity|].
  apply (current_ids_last_wins [Fixtures.mk_ticket 5 "open" "normal"] []
           (Fixtures.mk_ticket 5 "new" "urgent") (PyInt 5) _ eq_refl eq_refl).
  apply not_elem_of_nil.
Defined.

Lemma detect_changes_forgets_witness :
  ∃ ch snap,
    detect_changes Fixtures.prev_snapshot Fixtures.batch_without_5
    = Ok (ch, snap)
    ∧ (od_get snap (PyInt 5) = None
       ↔ PyInt 5 ∉ ticket_ids Fixtures.batch_without_5).
Proof.
  do 2 eexists. split; [reflexivity|].
  exact (detect_changes_forgets Fixtures.prev_snapshot _
           Fixtures.batch_without_5 _ (PyInt 5) eq_refl).
Defined.

Lemma detect_changes_returning_ticket_witness :
  ∃ c1 s1 c2 s2,
    detect_changes Fixtures.prev_snapshot Fixtures.batch_without_5
    = Ok (c1, s1)
    ∧ detect_changes s1 Fixtures.batch = Ok (c2, s2)
    ∧ Fixtures.mk_ticket 5 "open" "normal" ∈ new_tickets c2.
Proof.
  do 2 eexists.
  destruct (detect_changes_returning_ticket Fixtures.prev_snapshot _
              Fixtures.batch_without_5 Fixtures.batch _
              (Fixtures.mk_ticket 5 "open" "normal")
              eq_refl batch_has_ids batch_ids_distinct)
    as (c2 & s2 & H2 & Hin).
  - by left.
  - intros H%list_elem_of_singleton. by vm_compute in H.
  - exists c2, s2. split; [reflexivity|]. by split.
Defined.

End MonitorExtra.

(** ** The server: what an evaluation is made of *)

Module ServerExtra.
Import Server ServerSpec.

(** An evaluation [parse_sla_metrics] returns always comes from a stream
    that is present in the metric data and has an [apply_sla] event: its
    [metric_type] is resolution_time or reply_time, it is the evaluation of
    the stream of that name, and it is a reply_time one only when the
    resolution_time stream gave no evaluation. *)
Theorem parse_sla_metrics_sound
    (metric_data : option (gmap string (list event))) (st : option string)
    (i : sla_info) :
  parse_sla_metrics metric_data st = Some i →
  ∃ md events,
    metric_data = Some md
    ∧ md !! metric_type i = Some events
    ∧ eval_stream (metric_type i) events = Some i
    ∧ has_event "apply_sla" events
    ∧ (metric_type i = "resolution_time"
       ∨ (metric_type i = "reply_time"
          ∧ (md !! "resolution_time" ≫= eval_stream "resolution_time") = None)).
Proof.
  destruct metric_data as [md|]; [|done].
  rewrite parse_sla_metrics_two. intros H. exists md.
  destruct (md !! "resolution_time" ≫= eval_stream "resolution_time")
    as [i0|] eqn:Hres.
  - injection H as ->.
    destruct (md !! "resolution_time") as [evs|] eqn:Hevs; [|done].
    simpl in Hres. pose proof (eval_stream_metric_type _ _ _ Hres) as Hmt.
    exists evs. rewrite Hmt. split_and!; try done; [|by left].
    apply (find_apply_sla_has_event "resolution_time"), eval_stream_is_Some.
    by eexists.
  - destruct (md !! "reply_time") as [evs|] eqn:Hevs; [|done].
    simpl in H. pose proof (eval_stream_metric_type _ _ _ H) as Hmt.
    exists evs. rewrite Hmt. split_and!; try done; [|by right].
    apply (find_apply_sla_has_event "reply_time"), eval_stream_is_Some.
    by eexists.
Qed.

Lemma find_apply_sla_skip (mt : string) (pre rest : list event) :
  Forall (fun e => ev_type e ≠ Some "apply_sla" ∨ ev_sla e = None) pre →
  find_apply_sla mt (pre ++ rest) = find_apply_sla mt rest.
Proof.
  intros Hpre. induction Hpre as [|e pre He _ IH]; [done|].
  simpl. case_decide as Hty; [|done].
  destruct He as [?| ->]; done.
Qed.

(** The first [apply_sla] event that has an [sla] object decides the
    target, the business-hours flag and the policy of the evaluation,
    whatever follows it: the target is [target_in_seconds] when present,
    otherwise [target], in minutes, times 60, otherwise 0; the flag
    defaults to false and the policy title to Unknown. *)
Theorem eval_stream_first_apply_sla
    (mt : string) (pre post : list event) (e : event) (d : sla_data) :
  Forall (fun e' => ev_type e' ≠ Some "apply_sla" ∨ ev_sla e' = None) pre →
  ev_type e = Some "apply_sla" →
  ev_sla e = Some d →
  ∃ i, eval_stream mt (pre ++ e :: post) = Some i
       ∧ metric_type i = mt
       ∧ target_seconds i
         = match target_in_seconds d with
           | Some secs => secs
           | None => match target d with Some mins => mins * 60 | None => 0 end
           end
       ∧ business_hours i = default false (sd_business_hours d)
       ∧ policy_title i = default "Unknown" (policy d ≫= pol_title)
       ∧ policy_id i = policy d ≫= pol_id.
Proof.
  intros Hpre Hty Hsla. unfold eval_stream.
  rewrite (find_apply_sla_skip mt pre (e :: post) Hpre).
  simpl. rewrite decide_True by done. rewrite Hsla. simpl.
  eexists. split; [done|]. simpl. split_and!; try done.
  destruct (target_in_seconds d); [done|]. by destruct (target d).
Qed.

Lemma scan_no_breach (events : list event) (st : bool * option string) :
  Forall (fun e => ev_type e ≠ Some "breach") events →
  (fold_left scan_step events st).2 = st.2.
Proof.
  intros H. revert st. induction H as [|e es He _ IH]; intros st; [done|].
  cbn [fold_left]. rewrite IH. unfold scan_step.
  case_decide; [done|]. by rewrite decide_False.
Qed.

(** [breach_time] is the time of the last [breach] event of the stream,
    and [breached] says whether that event carries a time: an earlier
    breach does not count once a later one has no time. *)
Theorem eval_stream_last_breach
    (mt : string) (pre post : list event) (b : event) (i : sla_info) :
  eval_stream mt (pre ++ b :: post) = Some i →
  ev_type b = Some "breach" →
  Forall (fun e => ev_type e ≠ Some "breach") post →
  breach_time i = ev_time b
  ∧ (breached i = true ↔ is_Some (ev_time b)).
Proof.
  intros H Hb Hpost. unfold eval_stream in H.
  destruct (find_apply_sla mt _) as [i0|]; [|done]. simpl in H.
  injection H as <-. simpl. unfold scan_events.
  rewrite fold_left_app. cbn [fold_left].
  rewrite (scan_no_breach post _ Hpost).
  assert ((scan_step (fold_left scan_step pre (false, None)) b).2 = ev_time b)
    as ->.
  { unfold scan_step. rewrite decide_False by (rewrite Hb; congruence).
    by rewrite decide_True. }
  split; [done|]. by rewrite bool_decide_eq_true, not_eq_None_Some.
Qed.

(** A stream without a [breach] event gives an evaluation that is not
    breached and has no breach time. *)
Theorem eval_stream_no_breach (mt : string) (events : list event) (i : sla_info) :
  eval_stream mt events = Some i →
  Forall (fun e => ev_type e ≠ Some "breach") events →
  breached i = false ∧ breach_time i = None.
Proof.
  intros H Hno. unfold eval_stream in H.
  destruct (find_apply_sla mt _) as [i0|]; [|done]. simpl in H.
  injection H as <-. simpl. unfold scan_events.
  by rewrite (scan_no_breach events _ Hno).
Qed.

(** *** Instances *)

Lemma parse_sla_metrics_sound_witness :
  ∃ md events,
    Some Fixtures.metric_data_reply_only = Some md
    ∧ md !! metric_type Fixtures.reply_eval = Some events
    ∧ eval_stream (metric_type Fixtures.reply_eval) events
      = Some Fixtures.reply_eval
    ∧ has_event "apply_sla" events
    ∧ (metric_type Fixtures.reply_eval = "resolution_time"
       ∨ (metric_type Fixtures.reply_eval = "reply_time"
          ∧ (md !! "resolution_time" ≫= eval_stream "resolution_time") = None)).
Proof.
  apply (parse_sla_metrics_sound (Some Fixtures.metric_data_reply_only) None).
  by vm_compute.
Defined.

Lemma eval_stream_first_apply_sla_witness :
  ∃ i, eval_stream "resolution_time"
         ([Fixtures.ev_breach] ++ Fixtures.ev_apply :: [Fixtures.ev_fulfill])
       = Some i
       ∧ metric_type i = "resolution_time"
       ∧ target_seconds i = 360 * 60.
Proof.
  assert (Forall (fun e' => ev_type e' ≠ Some "apply_sla" ∨ ev_sla e' = None)
            [Fixtures.ev_breach]) as Hpre
    by (apply Forall_cons_2; [by left | apply Forall_nil_2]).
  destruct (eval_stream_first_apply_sla "resolution_time"
              [Fixtures.ev_breach] [Fixtures.ev_fulfill] Fixtures.ev_apply _
              Hpre eq_refl eq_refl) as (i & Hi & Hmt & Ht & _).
  exists i. split_and!; [exact Hi | exact Hmt | exact Ht].
Defined.

Lemma eval_stream_last_breach_witness :
  ∃ i, eval_stream "resolution_time"
         ([Fixtures.ev_apply; Fixtures.ev_breach]
          ++ Fixtures.ev_breach_untimed :: [Fixtures.ev_fulfill]) = Some i
       ∧ breach_time i = None
       ∧ (breached i = true ↔ is_Some (@None string)).
Proof.
  eexists. split; [reflexivity|].
  apply (eval_stream_last_breach "resolution_time"
           [Fixtures.ev_apply; Fixtures.ev_breach] [Fixtures.ev_fulfill]
           Fixtures.ev_breach_untimed _ eq_refl eq_refl).
  apply Forall_cons_2; [done | apply Forall_nil_2].
Defined.

Lemma eval_stream_no_breach_witness :
  ∃ i, eval_stream "reply_time" [Fixtures.ev_apply; Fixtures.ev_fulfill] = Some i
       ∧ breached i = false ∧ breach_time i = None.
Proof.
  eexists. split; [reflexivity|].
  apply (eval_stream_no_breach "reply_time"
           [Fixtures.ev_apply; Fixtures.ev_fulfill] _ eq_refl).
  repeat (apply Forall_cons_2; [done|]). apply Forall_nil_2.
Defined.

End ServerExtra.

(** ** The dashboard: more on classification and the badge *)

Module DashboardExtra.
Import Server Dashboard DashboardSpec Counting CountingFacts.

(** For a solved or closed ticket the classification uses neither the
    clock nor the creation time: it depends on the status and the
    evaluation only, has no remaining time, and is breach exactly when an
    evaluation is attached with the breached flag set, ok otherwise. *)
Theorem getSLAStatus_terminal (now : Z) (t : ticket) :
  is_terminal (status t) = true →
  (∀ now' t', status t' = status t → sla_metrics t' = sla_metrics t →
     getSLAStatus now' t' = getSLAStatus now t)
  ∧ remaining (getSLAStatus now t) = None
  ∧ (sla_status (getSLAStatus now t) = "breach"
     ↔ ∃ m, sla_metrics t = Some m ∧ breached m = true)
  ∧ (sla_status (getSLAStatus now t) = "breach"
     ∨ sla_status (getSLAStatus now t) = "ok").
Proof.
  intros Hterm. split_and!.
  - intros now' t' Hst Hm. unfold getSLAStatus. by rewrite Hst, Hm, Hterm.
  - unfold getSLAStatus. rewrite Hterm.
    destruct (sla_metrics t) as [m|]; [by destruct (breached m) | done].
  - unfold getSLAStatus. rewrite Hterm.
    destruct (sla_metrics t) as [m|].
    + destruct (breached m) eqn:Hb; simpl.
      * split; [by exists m | done].
      * split; [done | intros (m' & [= <-] & Hb'); congruence].
    + simpl. split; [done | by intros (m' & ? & _)].
  - unfold getSLAStatus. rewrite Hterm.
    destruct (sla_metrics t) as [m|]; [destruct (breached m)|]; simpl; auto.
Qed.

Lemma remaining_mono (T a a' : Q) :
  (a <= a')%Q → (T / 60 - a' / 60000 <= T / 60 - a / 60000)%Q.
Proof. intros H. const_div. lra. Qed.

Lemma percent_mono (T a a' : Q) :
  (0 < T)%Q → (a <= a')%Q →
  ((T / 60 - a' / 60000) / (T / 60) * 100
   <= (T / 60 - a / 60000) / (T / 60) * 100)%Q.
Proof.
  intros HT Ha. pose proof (remaining_mono T a a' Ha) as Hr.
  assert (0 < T / 60)%Q as Hd by (const_div; lra).
  apply Qmult_le_compat_r; [|done].
  unfold Qdiv at 1 4. apply Qmult_le_compat_r; [done|].
  apply Qlt_le_weak. by apply Qinv_lt_0_compat.
Qed.

(** An open ticket with a creation time and a positive target only moves
    towards breach as the clock advances: once breach it stays breach, and
    once at risk it is at risk or breach at every later time. *)
Theorem getSLAStatus_escalates (now now' c : Z) (t : ticket) (m : sla_info) :
  is_terminal (status t) = false →
  sla_metrics t = Some m →
  0 < target_seconds m →
  created_at t = Some c →
  now <= now' →
  (sla_status (getSLAStatus now t) = "breach" →
   sla_status (getSLAStatus now' t) = "breach")
  ∧ (sla_status (getSLAStatus now t) = "warning" →
     sla_status (getSLAStatus now' t) = "warning"
     ∨ sla_status (getSLAStatus now' t) = "breach").
Proof.
  intros Hterm Hm HT Hc Hnow.
  assert (target_seconds m ≠ 0) as HT0 by lia.
  pose proof (getSLAStatus_open now c t m Hterm Hm HT0 Hc) as H1.
  pose proof (getSLAStatus_open now' c t m Hterm Hm HT0 Hc) as H2.
  cbv zeta in H1, H2.
  set (T := inject_Z (target_seconds m)) in *.
  set (a := (inject_Z now - inject_Z c)%Q) in *.
  set (a' := (inject_Z now' - inject_Z c)%Q) in *.
  assert (0 < T)%Q as HTq by (unfold T; rewrite <- (Zlt_Qlt 0); lia).
  assert (a <= a')%Q as Ha.
  { unfold a, a'. apply Qplus_le_l. by rewrite <- Zle_Qle. }
  pose proof (remaining_mono T a a' Ha) as Hr.
  pose proof (percent_mono T a a' HTq Ha) as Hp.
  destruct (breached m).
  { cbn [orb] in H1, H2. injection H1 as -> _. injection H2 as -> _.
    by auto. }
  cbn [orb] in H1, H2.
  destruct (Qle_bool (T / 60 - a / 60000) 0) eqn:E1.
  - apply Qle_bool_iff in E1.
    assert (Qle_bool (T / 60 - a' / 60000) 0 = true) as E2.
    { apply Qle_bool_iff. by apply (Qle_trans _ _ _ Hr). }
    rewrite E2 in H2. injection H1 as -> _. injection H2 as -> _. by auto.
  - destruct (Qle_bool ((T / 60 - a / 60000) / (T / 60) * 100) 25) eqn:E3.
    + apply Qle_bool_iff in E3.
      assert (Qle_bool ((T / 60 - a' / 60000) / (T / 60) * 100) 25 = true)
        as E4.
      { apply Qle_bool_iff. by apply (Qle_trans _ _ _ Hp). }
      rewrite E4 in H2. injection H1 as -> _.
      destruct (Qle_bool (T / 60 - a' / 60000) 0);
        injection H2 as -> _; split; auto; done.
    + injection H1 as -> _. split; done.
Qed.

(** [renderSLABadge] returns the empty string exactly when the status is
    breach and [metricType] is not the label Resolution; in every other
    case it returns a span. *)
Theorem renderSLABadge_empty_iff (now : Z) (t : ticket) :
  renderSLABadge now t = ""
  ↔ sla_status (getSLAStatus now t) = "breach"
    ∧ metricType (getSLAStatus now t) ≠ Some "Resolution".
Proof.
  unfold renderSLABadge.
  destruct (bool_decide (sla_status (getSLAStatus now t) = "breach")) eqn:E1;
    [destruct (bool_decide (metricType (getSLAStatus now t) ≠ Some "Resolution"))
       eqn:E2|]; cbn [andb].
  - apply bool_decide_eq_true in E1, E2. done.
  - apply bool_decide_eq_false in E2. split; [done | intros [_ ?]; done].
  - apply bool_decide_eq_false in E1. split; [done | intros [? _]; done].
Qed.

(** For a ticket that is not solved or closed, the badge is suppressed
    exactly when the ticket is classified breach on an evaluation that is
    not a resolution_time one; a ticket with a resolution_time evaluation
    or with none always gets a badge. *)
Theorem renderSLABadge_open (now : Z) (t : ticket) :
  is_terminal (status t) = false →
  (renderSLABadge now t = ""
   ↔ ∃ m, sla_metrics t = Some m
          ∧ metric_type m ≠ "resolution_time"
          ∧ sla_status (getSLAStatus now t) = "breach").
Proof.
  intros Hterm. rewrite renderSLABadge_empty_iff.
  unfold getSLAStatus. rewrite Hterm.
  destruct (sla_metrics t) as [m|]; [|simpl; split; [by intros [? _] | by intros (? & ? & _)]].
  case_decide as HT; [|simpl; split; [by intros [? _] | by intros (? & _ & _ & ?)]].
  assert (∀ st lbl r o,
            metricType {| sla_status := st; sla_label := lbl; remaining := r;
                          overdue := o; sla_policy_name := Some (policy_title m);
                          metricType := Some (metricLabel m);
                          sla_fulfilled := None |} ≠ Some "Resolution"
            ↔ metric_type m ≠ "resolution_time") as Hlabel.
  { intros. simpl. unfold metricLabel. case_decide; split; done. }
  destruct (breached m || _).
  - rewrite Hlabel. simpl. split.
    + intros [_ Hne]. by exists m.
    + intros (m' & [= <-] & Hne & _). done.
  - destruct (nle _ _); simpl.
    + split; [by intros [? _] | by intros (? & _ & _ & ?)].
    + split; [by intros [? _] | by intros (? & _ & _ & ?)].
Qed.

(** *** calculateStats: the SLA cards *)







(** A resolution_time evaluation with a zero target on an open ticket:
    counted on track, listed by none of the three cards. *)
Example zero_target_counted_on_track :
  sla_onTrack
    (sla_bucket
       (calculateStats Fixtures.hour
          [Fixtures.dash_ticket "open" (Some 0) (Some Fixtures.sla_zero_target)]))
  = 1
  ∧ filteredTickets (sla_card_filter Fixtures.hour "ok")
      [Fixtures.dash_ticket "open" (Some 0) (Some Fixtures.sla_zero_target)]
    = [].
Proof. by vm_compute. Qed.

(** *** calculateStats: counters and assignees *)

Lemma bump_lookup (c : gmap string Z) (k k' : string) :
  default 0 (bump c k' !! k)
  = default 0 (c !! k) + (if decide (k = k') then 1 else 0).
Proof.
  unfold bump. rewrite lookup_insert. case_decide as E.
  - subst k'. rewrite decide_True by done. done.
  - rewrite decide_False by done. lia.
Qed.

Lemma counters_step (now : Z) (s : stats) (t : ticket) :
  counters (calculateStats_step now s t)
  = (if is_unassigned t
     then bump (bump (bump (counters s) (priority_of t)) (status_of t))
               "unassigned"
     else bump (bump (counters s) (priority_of t)) (status_of t)).
Proof.
  unfold calculateStats_step, is_unassigned, priority_of, status_of.
  destruct (assignee_id t) as [a|]; [|done].
  case_decide; [by rewrite bool_decide_eq_true_2 | by rewrite bool_decide_eq_false_2].
Qed.

Lemma counters_fold (now : Z) (l : list ticket) (s : stats) (k : string) :
  default 0 (counters (fold_left (calculateStats_step now) l s) !! k)
  = default 0 (counters s !! k)
    + count_where (fun t => priority_of t = k) l
    + count_where (fun t => status_of t = k) l
    + (if decide (k = "unassigned")
       then count_where (fun t => is_unassigned t = true) l else 0).
Proof.
  revert s. induction l as [|t l IH]; intros s; cbn [fold_left].
  - unfold count_where. simpl. case_decide; lia.
  - rewrite IH, counters_step.
    rewrite (count_where_cons (fun t => priority_of t = k)).
    rewrite (count_where_cons (fun t => status_of t = k)).
    rewrite (count_where_cons (fun t => is_unassigned t = true)).
    destruct (is_unassigned t); rewrite ?bump_lookup;
      repeat case_decide; simplify_eq; lia.
Qed.

Lemma init_counters (tickets : list ticket) (k : string) :
  default 0 (counters (init_stats tickets) !! k)
  = if decide (k = "total") then Z.of_nat (length tickets) else 0.
Proof.
  unfold init_stats. cbn [counters].
  repeat (rewrite lookup_insert; case_decide;
          [simplify_eq; by vm_compute|]).
  rewrite lookup_empty. simpl. by rewrite decide_False.
Qed.

(** Every number-valued property [k] of the stats object ends up as: the
    length of the batch when [k] is total; plus the number of tickets
    whose priority, with none for a missing one, is [k]; plus the number
    whose status, with unknown for a missing one, is [k]; plus, when [k]
    is unassigned, the number of tickets without an assignee. *)
Theorem calculateStats_counters (now : Z) (tickets : list ticket) (k : string) :
  default 0 (counters (calculateStats now tickets) !! k)
  = (if decide (k = "total") then Z.of_nat (length tickets) else 0)
    + count_where (fun t => priority_of t = k) tickets
    + count_where (fun t => status_of t = k) tickets
    + (if decide (k = "unassigned")
       then count_where (fun t => is_unassigned t = true) tickets else 0).
Proof. unfold calculateStats. by rewrite counters_fold, init_counters. Qed.

Lemma entry_step (now : Z) (s : stats) (t : ticket) (a : Z) :
  a ≠ 0 →
  byAssignee (calculateStats_step now s t) !! a
  = if decide (assignee_id t = Some a)
    then Some (count_assignee
                 (default {| a_total := 0; a_urgent := 0; a_open := 0 |}
                          (byAssignee s !! a))
                 (priority_of t) (status_of t))
    else byAssignee s !! a.
Proof.
  intros Ha. unfold calculateStats_step, priority_of, status_of.
  destruct (assignee_id t) as [a'|]; [|by rewrite decide_False].
  destruct (decide (a' = 0)) as [->|Hne]; cbn [byAssignee].
  - rewrite decide_False; [done|]. intros [= <-]. done.
  - rewrite lookup_insert. destruct (decide (a' = a)) as [->|Hne'].
    + by rewrite decide_True.
    + rewrite decide_False; [done|]. intros [= <-]. done.
Qed.

Lemma entry_fold (now : Z) (l : list ticket) (s : stats) (a : Z) :
  a ≠ 0 →
  let zero := {| a_total := 0; a_urgent := 0; a_open := 0 |} in
  let e0 := default zero (byAssignee s !! a) in
  let e := default zero
             (byAssignee (fold_left (calculateStats_step now) l s) !! a) in
  a_total e = a_total e0 + count_where (fun t => assignee_id t = Some a) l
  ∧ a_urgent e
    = a_urgent e0
      + count_where
          (fun t => assignee_id t = Some a ∧ priority_of t = "urgent") l
  ∧ a_open e
    = a_open e0
      + count_where
          (fun t => assignee_id t = Some a
                    ∧ status_of t ∈ ["new"; "open"; "pending"]) l
  ∧ (is_Some (byAssignee (fold_left (calculateStats_step now) l s) !! a)
     ↔ is_Some (byAssignee s !! a)
       ∨ ∃ t, t ∈ l ∧ assignee_id t = Some a).
Proof.
  intros Ha. cbv zeta. revert s.
  induction l as [|t l IH]; intros s; cbn [fold_left].
  - unfold count_where. simpl. split_and!; try lia.
    split; [by left | intros [?|(t & Hin & _)]; [done|]].
    by apply elem_of_nil in Hin.
  - destruct (IH (calculateStats_step now s t)) as (H1 & H2 & H3 & H4).
    rewrite H1, H2, H3, H4. clear IH H1 H2 H3 H4.
    rewrite (entry_step now s t a Ha).
    rewrite (count_where_cons (fun t => assignee_id t = Some a)).
    rewrite (count_where_cons
               (fun t => assignee_id t = Some a ∧ priority_of t = "urgent")).
    rewrite (count_where_cons
               (fun t => assignee_id t = Some a
                         ∧ status_of t ∈ ["new"; "open"; "pending"])).
    destruct (decide (assignee_id t = Some a)) as [Heq|Hne].
    + unfold count_assignee. cbn [default from_option id a_total a_urgent a_open].
      split_and!.
      * lia.
      * repeat case_decide; try lia; tauto.
      * destruct (bool_decide _) eqn:E;
          [apply bool_decide_eq_true in E | apply bool_decide_eq_false in E];
          case_decide; try lia; tauto.
      * split; [intros _; right; exists t; split; [left | done]|].
        intros _. left. by eexists.
    + split_and!.
      * lia.
      * rewrite decide_False by tauto. lia.
      * rewrite decide_False by tauto. lia.
      * split.
        -- intros [?|(t' & Hin & Ht')]; [by left|]. right. exists t'.
           split; [by right | done].
        -- intros [?|(t' & Hin & Ht')]; [by left|].
           apply elem_of_cons in Hin as [->|Hin]; [done|].
           right. by exists t'.
Qed.

(** For an assignee id that is not zero, the entry of [byAssignee] holds
    the number of tickets of that assignee, how many of them are urgent
    and how many are new, open or pending; the entry exists exactly when
    the batch has a ticket of that assignee. *)
Theorem calculateStats_byAssignee (now : Z) (tickets : list ticket) (a : Z) :
  a ≠ 0 →
  let e := default {| a_total := 0; a_urgent := 0; a_open := 0 |}
             (byAssignee (calculateStats now tickets) !! a) in
  a_total e = count_where (fun t => assignee_id t = Some a) tickets
  ∧ a_urgent e
    = count_where
        (fun t => assignee_id t = Some a ∧ priority_of t = "urgent") tickets
  ∧ a_open e
    = count_where
        (fun t => assignee_id t = Some a
                  ∧ status_of t ∈ ["new"; "open"; "pending"]) tickets
  ∧ (is_Some (byAssignee (calculateStats now tickets) !! a)
     ↔ ∃ t, t ∈ tickets ∧ assignee_id t = Some a).
Proof.
  intros Ha. cbv zeta. unfold calculateStats.
  destruct (entry_fold now tickets (init_stats tickets) a Ha)
    as (H1 & H2 & H3 & H4).
  cbv zeta in *.
  change (byAssignee (init_stats tickets)) with (∅ : gmap Z assignee_stats)
    in H1, H2, H3, H4.
  rewrite lookup_empty in H1, H2, H3, H4.
  cbn [default from_option a_total a_urgent a_open] in H1, H2, H3.
  split_and!; [lia | lia | lia |].
  rewrite H4. split; [intros [[? [=]]|?]; done | by right].
Qed.

(** *** renderDashboard: the resolution rate *)

Lemma Math_round_percent (solved total : Z) :
  0 <= solved <= total → 0 < total →
  ∃ n, Math_round (nmul (ndiv (num_of_Z solved) (num_of_Z total)) (num_of_Z 100))
       = Some n ∧ 0 <= n <= 100.
Proof.
  intros Hs Ht. unfold num_of_Z.
  rewrite ndiv_nonzero by (apply inject_Z_nonzero; lia).
  cbn [nmul Math_round]. eexists. split; [done|].
  assert (0 < inject_Z total)%Q as Htq by (rewrite <- (Zlt_Qlt 0); lia).
  assert (0 <= inject_Z solved / inject_Z total)%Q as Hlo.
  { apply Qle_shift_div_l; [done|]. rewrite Qmult_0_l, <- (Zle_Qle 0). lia. }
  assert (inject_Z solved / inject_Z total <= 1)%Q as Hhi.
  { apply Qle_shift_div_r; [done|]. rewrite Qmult_1_l, <- Zle_Qle. lia. }
  set (q := (inject_Z solved / inject_Z total)%Q) in *. clearbody q.
  change (inject_Z 100) with 100%Q.
  split.
  - rewrite <- (Qfloor_Z 0). apply Qfloor_resp_le.
    change (inject_Z 0) with 0%Q. lra.
  - pose proof (Qfloor_le (q * 100 + (1 # 2))) as Hf.
    assert (inject_Z (Qfloor (q * 100 + (1 # 2))) < inject_Z 101)%Q as Hlt
      by (change (inject_Z 101) with 101%Q; lra).
    rewrite <- Zlt_Qlt in Hlt. lia.
Qed.

(** On a batch in which no priority is the string total or solved and no
    status is the string total, the resolution rate is a whole number from
    0 to 100, and it is 0 for the empty batch, where nothing is divided. *)
Theorem resolutionRate_bounds (now : Z) (tickets : list ticket) :
  Forall (fun t => priority_of t ≠ "total" ∧ priority_of t ≠ "solved"
                   ∧ status_of t ≠ "total") tickets →
  ∃ n, resolutionRate (calculateStats now tickets) = Some n
       ∧ 0 <= n <= 100
       ∧ (tickets = [] → n = 0).
Proof.
  intros Hok. unfold resolutionRate.
  unfold calculateStats. rewrite !counters_fold, !init_counters.
  rewrite !decide_True by done. rewrite !decide_False by done.
  rewrite (count_where_none (fun t => priority_of t = "total")), 
          (count_where_none (fun t => status_of t = "total")),
          (count_where_none (fun t => priority_of t = "solved"));
    try (eapply Forall_impl; [exact Hok|]; simpl; tauto).
  pose proof (count_where_bounds (fun t => status_of t = "solved") tickets).
  replace (Z.of_nat (length tickets) + 0 + 0 + 0) with (Z.of_nat (length tickets))
    by lia.
  replace (0 + 0 + count_where (fun t => status_of t = "solved") tickets + 0)
    with (count_where (fun t => status_of t = "solved") tickets) by lia.
  case_bool_decide as Hlen.
  - destruct (Math_round_percent
                (count_where (fun t => status_of t = "solved") tickets)
                (Z.of_nat (length tickets))) as (n & Hn & Hb); [lia | lia |].
    exists n. split; [done|]. split; [lia|]. intros ->. simpl in Hlen. lia.
  - exists 0. split; [done|]. split; [lia | done].
Qed.

(** *** detectNewTickets *)

Lemma detectNewTickets_fold
    (prev : gset Z) (l : list ticket) (acc : list ticket * gset Z) :
  fold_left (detectNewTickets_step prev) l acc
  = (acc.1 ++ filter (fun t => ticket_id t ∉ prev) l,
     list_to_set (ticket_id <$> l) ∪ acc.2).
Proof.
  revert acc. induction l as [|t l IH]; intros [nt ids]; cbn [fold_left].
  - simpl. rewrite app_nil_r. f_equal. by rewrite (left_id_L ∅ (∪)).
  - rewrite IH. unfold detectNewTickets_step. cbn [fst snd].
    rewrite filter_cons, fmap_cons, list_to_set_cons. f_equal.
    + destruct (decide (ticket_id t ∈ prev)).
      * by rewrite decide_False by tauto.
      * rewrite decide_True by done. by rewrite <- app_assoc.
    + rewrite (comm_L (∪) {[ticket_id t]} (list_to_set (ticket_id <$> l))).
      by rewrite (assoc_L (∪)).
Qed.

(** [detectNewTickets] returns, in batch order, the tickets whose id is not
    in [previousTickets], a ticket that occurs twice in the batch being
    returned twice; and it replaces [previousTickets] by the set of the
    ids of the batch. *)
Theorem detectNewTickets_spec (previousTickets : gset Z) (tickets : list ticket) :
  detectNewTickets previousTickets tickets
  = (filter (fun t => ticket_id t ∉ previousTickets) tickets,
     list_to_set (ticket_id <$> tickets)).
Proof.
  unfold detectNewTickets. rewrite detectNewTickets_fold. cbn [fst snd app].
  f_equal. by rewrite (right_id_L ∅ (∪)).
Qed.

Lemma filter_none {A : Type} (P : A → Prop) `{!∀ x, Decision (P x)} (l : list A) :
  Forall (fun x => ¬ P x) l → filter P l = [].
Proof.
  intros Hall. induction Hall as [|x l Hx _ IH]; [done|].
  by rewrite filter_cons, decide_False.
Qed.

Lemma filter_all {A : Type} (P : A → Prop) `{!∀ x, Decision (P x)} (l : list A) :
  Forall P l → filter P l = l.
Proof.
  intros Hall. induction Hall as [|x l Hx _ IH]; [done|].
  rewrite filter_cons, decide_True by done. by rewrite IH.
Qed.

(** Two polls that return the same batch: the second reports no new
    ticket, whatever had been seen before the first. On page load, when
    nothing has been seen, every ticket of the batch is reported. *)
Theorem detectNewTickets_twice (previousTickets : gset Z) (tickets : list ticket) :
  (detectNewTickets (detectNewTickets previousTickets tickets).2 tickets).1 = []
  ∧ (detectNewTickets ∅ tickets).1 = tickets.
Proof.
  unfold detectNewTickets. rewrite !detectNewTickets_fold. cbn [fst snd app].
  split.
  - apply filter_none, Forall_forall. intros t Ht Hout. apply Hout.
    apply elem_of_union_l, elem_of_list_to_set, list_elem_of_fmap. by exists t.
  - apply filter_all, Forall_forall. intros t _. apply not_elem_of_empty.
Qed.

(** *** Instances *)

Lemma getSLAStatus_terminal_witness :
  remaining
    (getSLAStatus Fixtures.hour
       (Fixtures.dash_ticket "closed" (Some 0)
          (Some (Fixtures.sla_6h "reply_time" false)))) = None
  ∧ (sla_status
       (getSLAStatus Fixtures.hour
          (Fixtures.dash_ticket "closed" (Some 0)
             (Some (Fixtures.sla_6h "reply_time" false)))) = "breach"
     ∨ sla_status
         (getSLAStatus Fixtures.hour
            (Fixtures.dash_ticket "closed" (Some 0)
               (Some (Fixtures.sla_6h "reply_time" false)))) = "ok").
Proof.
  destruct (getSLAStatus_terminal Fixtures.hour
              (Fixtures.dash_ticket "closed" (Some 0)
                 (Some (Fixtures.sla_6h "reply_time" false))) eq_refl)
    as (_ & H2 & _ & H4).
  exact (conj H2 H4).
Defined.

Lemma getSLAStatus_escalates_witness :
  sla_status
    (getSLAStatus (10 * Fixtures.hour)
       (Fixtures.dash_ticket "open" (Some 0)
          (Some (Fixtures.sla_6h "resolution_time" false)))) = "warning"
  ∨ sla_status
      (getSLAStatus (10 * Fixtures.hour)
         (Fixtures.dash_ticket "open" (Some 0)
            (Some (Fixtures.sla_6h "resolution_time" false)))) = "breach".
Proof.
  apply (proj2 (getSLAStatus_escalates (5 * Fixtures.hour) (10 * Fixtures.hour) 0
                  (Fixtures.dash_ticket "open" (Some 0)
                     (Some (Fixtures.sla_6h "resolution_time" false)))
                  (Fixtures.sla_6h "resolution_time" false)
                  eq_refl eq_refl eq_refl eq_refl ltac:(by vm_compute))).
  by vm_compute.
Defined.

Lemma renderSLABadge_open_witness :
  renderSLABadge (10 * Fixtures.hour)
    (Fixtures.dash_ticket "open" (Some 0)
       (Some (Fixtures.sla_6h "reply_time" false))) = "".
Proof.
  apply (renderSLABadge_open (10 * Fixtures.hour)
           (Fixtures.dash_ticket "open" (Some 0)
              (Some (Fixtures.sla_6h "reply_time" false))) eq_refl).
  eexists. split; [reflexivity|]. split; by vm_compute.
Defined.

Lemma calculateStats_byAssignee_witness :
  a_total
    (default {| a_total := 0; a_urgent := 0; a_open := 0 |}
       (byAssignee
          (calculateStats Fixtures.hour
             [Fixtures.assigned_ticket; Fixtures.assigned_ticket]) !! 42))
  = count_where (fun t => assignee_id t = Some 42)
      [Fixtures.assigned_ticket; Fixtures.assigned_ticket].
Proof.
  refine (proj1 (calculateStats_byAssignee Fixtures.hour
                   [Fixtures.assigned_ticket; Fixtures.assigned_ticket]
                   42 _)).
  by vm_compute.
Defined.

Lemma resolutionRate_bounds_witness :
  ∃ n, resolutionRate
         (calculateStats Fixtures.hour
            [Fixtures.dash_ticket "solved" (Some 0) None;
             Fixtures.dash_ticket "open" (Some 0) None;
             Fixtures.dash_ticket "new" (Some 0) None]) = Some n
       ∧ 0 <= n <= 100.
Proof.
  destruct (resolutionRate_bounds Fixtures.hour
              [Fixtures.dash_ticket "solved" (Some 0) None;
               Fixtures.dash_ticket "open" (Some 0) None;
               Fixtures.dash_ticket "new" (Some 0) None])
    as (n & Hn & Hb & _).
  - repeat (apply Forall_cons_2; [by vm_compute|]). apply Forall_nil_2.
  - exists n. by split.
Defined.

(** One solved ticket of three rounds to 33 percent. *)
Example resolutionRate_one_of_three :
  resolutionRate
    (calculateStats Fixtures.hour
       [Fixtures.dash_ticket "solved" (Some 0) None;
        Fixtures.dash_ticket "open" (Some 0) None;
        Fixtures.dash_ticket "new" (Some 0) None]) = Some 33.
Proof. by vm_compute. Qed.

End DashboardExtra.

(** ** The proxy: the enrichment loop *)

Module ProxyExtra.
Import Server Dashboard Proxy.

Section enrichment_facts.
Variable get_ticket_sla_data : Z → option (gmap string (list event)).

(** What the statistics other than the SLA buckets read off a ticket. *)
Local Abbreviation same_fields :=
  (fun t t' : ticket =>
     ticket_id t' = ticket_id t ∧ status t' = status t
     ∧ priority t' = priority t ∧ created_at t' = created_at t
     ∧ assignee_id t' = assignee_id t).

Lemma enrich_ticket_fields (t : ticket) :
  same_fields t (enrich_ticket get_ticket_sla_data t).
Proof.
  unfold enrich_ticket. case_decide; [done|].
  destruct (get_ticket_sla_data (ticket_id t)) as [md|]; [|done].
  by case_decide.
Qed.

Lemma enrich_length (tickets : list ticket) :
  length (enrich get_ticket_sla_data tickets) = length tickets.
Proof.
  unfold enrich. rewrite length_app, length_fmap, length_take, length_drop. lia.
Qed.

Lemma enrich_same_fields (tickets : list ticket) :
  Forall2 same_fields tickets (enrich get_ticket_sla_data tickets).
Proof.
  unfold enrich. rewrite <- (take_drop 50 tickets) at 1. apply Forall2_app.
  - apply Forall2_fmap_r, Forall_Forall2_diag, Forall_forall.
    intros t _. apply enrich_ticket_fields.
  - apply Forall_Forall2_diag, Forall_forall. by intros t _.
Qed.

(** The enrichment loop keeps the length and the order of the batch and
    touches only [sla_metrics], and only in the first 50 tickets: a ticket
    at position 50 or later reaches the dashboard as the search returned
    it, and a ticket before that as [enrich_ticket] leaves it. *)
Theorem enrich_first_50 (tickets : list ticket) :
  length (enrich get_ticket_sla_data tickets) = length tickets
  ∧ (∀ i, (50 ≤ i)%nat →
       enrich get_ticket_sla_data tickets !! i = tickets !! i)
  ∧ (∀ i t, (i < 50)%nat → tickets !! i = Some t →
       enrich get_ticket_sla_data tickets !! i
       = Some (enrich_ticket get_ticket_sla_data t))
  ∧ Forall2 same_fields tickets (enrich get_ticket_sla_data tickets).
Proof.
  split_and!; [apply enrich_length | | | apply enrich_same_fields].
  - intros i Hi. unfold enrich.
    destruct (decide (length tickets ≤ 50)%nat) as [Hshort|Hlong].
    + rewrite drop_ge, app_nil_r by done.
      rewrite (lookup_ge_None_2 tickets) by lia.
      apply lookup_ge_None_2. rewrite length_fmap, length_take. lia.
    + rewrite lookup_app_r; rewrite length_fmap, length_take; [|lia].
      rewrite lookup_drop. f_equal. lia.
  - intros i t Hi Ht. unfold enrich.
    rewrite lookup_app_l.
    + rewrite list_lookup_fmap, lookup_take_lt by done. by rewrite Ht.
    + rewrite length_fmap, length_take.
      apply lookup_lt_Some in Ht. lia.
Qed.

Lemma calculateStats_step_congr (now now' : Z) (s s' : stats) (t t' : ticket) :
  same_fields t t' →
  counters s = counters s' → byAssignee s = byAssignee s' →
  counters (calculateStats_step now s t)
  = counters (calculateStats_step now' s' t')
  ∧ byAssignee (calculateStats_step now s t)
    = byAssignee (calculateStats_step now' s' t').
Proof.
  intros (_ & Hst & Hp & _ & Ha) Hc Hb. unfold calculateStats_step.
  rewrite Hst, Hp, Ha, Hc, Hb.
  destruct (assignee_id t) as [a|]; [|done]. by case_decide.
Qed.

Lemma calculateStats_fold_congr (now now' : Z) (l l' : list ticket) (s s' : stats) :
  Forall2 same_fields l l' →
  counters s = counters s' → byAssignee s = byAssignee s' →
  counters (fold_left (calculateStats_step now) l s)
  = counters (fold_left (calculateStats_step now') l' s')
  ∧ byAssignee (fold_left (calculateStats_step now) l s)
    = byAssignee (fold_left (calculateStats_step now') l' s').
Proof.
  intros Hl. revert s s'.
  induction Hl as [|t t' l l' Ht _ IH]; intros s s' Hc Hb; [done|].
  cbn [fold_left].
  destruct (calculateStats_step_congr now now' s s' t t' Ht Hc Hb) as [? ?].
  by apply IH.
Qed.

(** The counters and the per-assignee figures of [calculateStats] are the
    same with and without the enrichment, and at any two times: of the
    whole stats object only the SLA buckets depend on the metric events
    and on the clock. *)
Theorem enrich_keeps_counts (now now' : Z) (tickets : list ticket) :
  counters (calculateStats now (enrich get_ticket_sla_data tickets))
  = counters (calculateStats now' tickets)
  ∧ byAssignee (calculateStats now (enrich get_ticket_sla_data tickets))
    = byAssignee (calculateStats now' tickets).
Proof.
  pose proof (enrich_length tickets) as Hlen.
  pose proof (enrich_same_fields tickets) as Hsame.
  unfold calculateStats. apply calculateStats_fold_congr.
  - apply Forall2_flip. eapply Forall2_impl; [exact Hsame|].
    simpl. intros t t' (-> & -> & -> & -> & ->). done.
  - unfold init_stats. cbn [counters]. by rewrite Hlen.
  - done.
Qed.

End enrichment_facts.

(** *** Instances *)

Lemma enrich_first_50_witness :
  enrich Fixtures.sla_source
    (replicate 51 (Fixtures.dash_ticket "open" (Some 0) None)) !! 50%nat
  = replicate 51 (Fixtures.dash_ticket "open" (Some 0) None) !! 50%nat.
Proof.
  apply (proj1 (proj2 (enrich_first_50 Fixtures.sla_source
                         (replicate 51 (Fixtures.dash_ticket "open" (Some 0) None))))).
  done.
Defined.

(** The first ticket of that batch gets the evaluation of its metric
    events; the last one, at position 50, keeps none. *)
Example enrich_51_tickets :
  (sla_metrics
     <$> enrich Fixtures.sla_source
           (replicate 51 (Fixtures.dash_ticket "open" (Some 0) None)) !! 0%nat)
  = Some (parse_sla_metrics (Some Fixtures.metric_data_both) (Some "open"))
  ∧ (sla_metrics
       <$> enrich Fixtures.sla_source
             (replicate 51 (Fixtures.dash_ticket "open" (Some 0) None)) !! 50%nat)
    = Some None.
Proof. by vm_compute. Qed.

End ProxyExtra.

(** ** The dashboard: card figures and the lists behind them *)

Module CardsExtra.
Import Server Dashboard DashboardSpec Counting CountingFacts DashboardExtra.

Lemma count_where_filter (P : ticket → Prop) `{!∀ x, Decision (P x)}
    (f : ticket → bool) (l : list ticket) :
  (∀ t, P t ↔ f t = true) →
  count_where P l = Z.of_nat (length (List.filter f l)).
Proof.
  intros Hf. induction l as [|t l IH]; [done|].
  rewrite count_where_cons, IH. simpl.
  destruct (f t) eqn:E.
  - rewrite decide_True by by apply Hf. simpl. lia.
  - rewrite decide_False; [lia|]. rewrite Hf. congruence.
Qed.

Lemma count_where_le (P Q : ticket → Prop)
    `{!∀ x, Decision (P x)} `{!∀ x, Decision (Q x)} (l : list ticket) :
  (∀ t, P t → Q t) → count_where P l <= count_where Q l.
Proof.
  intros HPQ. induction l as [|t l IH]; [done|].
  rewrite !count_where_cons.
  destruct (decide (P t)) as [HP|HP].
  - rewrite decide_True by by apply HPQ. lia.
  - destruct (decide (Q t)); lia.
Qed.

Lemma priority_of_eq (t : ticket) (p : string) :
  p ≠ "none" → p ≠ "" → (priority_of t = p ↔ priority t = Some p).
Proof.
  intros Hn He. unfold priority_of, str_or.
  destruct (priority t) as [s|]; [|split; [by intros <- | done]].
  case_decide as Hs.
  - subst s. split; [by intros <- | by intros [= <-]].
  - split; [by intros -> | by intros [= ->]].
Qed.

Lemma status_of_eq (t : ticket) (p : string) :
  p ≠ "unknown" → p ≠ "" → (status_of t = p ↔ status t = Some p).
Proof.
  intros Hn He. unfold status_of, str_or.
  destruct (status t) as [s|]; [|split; [by intros <- | done]].
  case_decide as Hs.
  - subst s. split; [by intros <- | by intros [= <-]].
  - split; [by intros -> | by intros [= ->]].
Qed.

(** The figure of the card of a priority is the number of tickets its
    filter lists, on a batch in which no status is that string. *)
Theorem priority_card_matches_list
    (now : Z) (tickets : list ticket) (p : string) :
  p ∈ ["urgent"; "high"; "normal"; "low"] →
  Forall (fun t => status_of t ≠ p) tickets →
  priorityCardValue (calculateStats now tickets) p
  = Z.of_nat (length (filteredTickets (has_priority p) tickets)).
Proof.
  intros Hp Hst. unfold priorityCardValue, filteredTickets.
  unfold calculateStats. rewrite counters_fold, init_counters.
  assert (p ≠ "total" ∧ p ≠ "unassigned" ∧ p ≠ "none" ∧ p ≠ "")
    as (H1 & H2 & H3 & H4).
  { repeat (apply elem_of_cons in Hp as [->|Hp]; [done|]).
    by apply elem_of_nil in Hp. }
  rewrite !decide_False by done.
  rewrite (count_where_none (fun t => status_of t = p)) by done.
  rewrite (count_where_filter (fun t => priority_of t = p) (has_priority p)).
  - lia.
  - intros t. unfold has_priority. rewrite bool_decide_eq_true.
    by apply priority_of_eq.
Qed.

(** The figure of the Open Tickets card is the number of tickets its
    filter lists, on a batch in which no priority is the string open, new
    or pending. *)
Theorem open_card_matches_list (now : Z) (tickets : list ticket) :
  Forall (fun t => priority_of t ≠ "open" ∧ priority_of t ≠ "new"
                   ∧ priority_of t ≠ "pending") tickets →
  openCardValue (calculateStats now tickets)
  = Z.of_nat (length (filteredTickets is_open tickets)).
Proof.
  intros Hp. unfold openCardValue, filteredTickets.
  unfold calculateStats. rewrite !counters_fold, !init_counters. rewrite !decide_False by done.
  rewrite (count_where_none (fun t => priority_of t = "open")),
          (count_where_none (fun t => priority_of t = "new")),
          (count_where_none (fun t => priority_of t = "pending"));
    try (eapply Forall_impl; [exact Hp|]; simpl; tauto).
  clear Hp. induction tickets as [|t l IH]; [done|].
  rewrite !count_where_cons. simpl List.filter.
  assert (is_open t = true
          ↔ status_of t = "open" ∨ status_of t = "new" ∨ status_of t = "pending")
    as Hopen.
  { unfold is_open. rewrite bool_decide_eq_true.
    rewrite !elem_of_cons, elem_of_nil.
    rewrite !status_of_eq by done. tauto. }
  destruct (is_open t) eqn:E.
  - destruct (proj1 Hopen eq_refl) as [H|[H|H]]; rewrite H;
      repeat case_decide; try done; cbn [length]; lia.
  - assert (status_of t ≠ "open" ∧ status_of t ≠ "new" ∧ status_of t ≠ "pending")
      as (? & ? & ?).
    { split_and!; intros H; by (assert (false = true) by (apply Hopen; tauto)). }
    rewrite !decide_False by done. lia.
Qed.

(** The number of active urgent tickets the Urgent card shows never
    exceeds the figure of the card. *)
Theorem urgent_active_le_total (now : Z) (tickets : list ticket) :
  Z.of_nat (length (urgentTickets tickets))
  <= priorityCardValue (calculateStats now tickets) "urgent".
Proof.
  unfold priorityCardValue, urgentTickets, calculateStats.
  rewrite counters_fold, init_counters.
  rewrite !decide_False by done.
  rewrite <- (count_where_filter (fun t => is_active_urgent t = true)) by done.
  pose proof (count_where_bounds (fun t => status_of t = "urgent") tickets).
  assert (∀ t, is_active_urgent t = true → priority_of t = "urgent") as Himp.
  { intros t [Hp _]%andb_true_iff. apply bool_decide_eq_true in Hp.
    by apply priority_of_eq. }
  pose proof (count_where_le (fun t => is_active_urgent t = true)
                (fun t => priority_of t = "urgent") tickets Himp) as Hle.
  lia.
Qed.

Lemma priority_card_matches_list_witness :
  priorityCardValue
    (calculateStats Fixtures.hour
       [Fixtures.dash_ticket "open" (Some 0) None;
        Fixtures.dash_ticket "solved" (Some 0) None]) "urgent"
  = Z.of_nat
      (length
         (filteredTickets (has_priority "urgent")
            [Fixtures.dash_ticket "open" (Some 0) None;
             Fixtures.dash_ticket "solved" (Some 0) None])).
Proof.
  apply priority_card_matches_list.
  - by left.
  - repeat (apply Forall_cons_2; [by vm_compute|]). apply Forall_nil_2.
Defined.

Lemma open_card_matches_list_witness :
  openCardValue
    (calculateStats Fixtures.hour
       [Fixtures.dash_ticket "open" (Some 0) None;
        Fixtures.dash_ticket "solved" (Some 0) None])
  = Z.of_nat
      (length
         (filteredTickets is_open
            [Fixtures.dash_ticket "open" (Some 0) None;
             Fixtures.dash_ticket "solved" (Some 0) None])).
Proof.
  apply open_card_matches_list.
  repeat (apply Forall_cons_2; [by vm_compute|]). apply Forall_nil_2.
Defined.

End CardsExtra.
